(** * CashFlow AI, ML forecasting service ([apps/ml-service/main.py])

    A shallow embedding of the forecast pipeline, the accuracy evaluator,
    the alert deriver and the anomaly scorer, and the properties of them
    that the specification states.

    Conventions of the embedding.
    - Money in minor units (cents) is [Z], as the integer columns hold it.
    - A Python/NumPy float is a rational [Q] when finite ([npfloat] adds the
      non-finite values NumPy produces on a division by zero). A rational
      stands for the binary64 value nearest to it: where the code's rounding
      decides a value that is stored (the running balance, the cents of a
      forecast row) the operations round as binary64 does ([b64], [fadd],
      [fmul]); the error metrics and the alert threshold are computed in
      exact arithmetic. A day's total in cents is taken to be a number a
      float holds exactly (below 2 ^ 53), so that its division by 100 is
      rounded once, where the running sum first uses it. Subnormal numbers
      and overflow are not modelled.
    - A calendar date is a day number in [Z]; consecutive days differ by 1.
    - Prophet and IsolationForest are third-party models: they enter as
      section variables (oracles) and nothing is assumed about the numbers
      they return.
    - An SQL statement that the code issues is assumed to be executed by the
      storage layer, except the one that cannot be executed as it is
      written ([execute_rejected]); a session keeps a working copy,
      [commit] publishes it and records the published snapshot. *)

From Stdlib Require Import ZArith QArith Qabs Qround Qpower Lqa.
From Stdlib Require Import String Bool Lia List.
From Stdlib Require Import Sorting.Sorted Sorting.Permutation DecimalString.
Import ListNotations.

Local Open Scope Z_scope.

(** ** Python results and exceptions *)

Inductive exn : Type :=
| ValueError (msg : string)
| KeyError (key : string)
| IndexError (msg : string)
| LibraryError (msg : string).

(** [str(e)] as the [except] clause of the pipeline captures it. *)
Definition str_exn (e : exn) : string :=
  match e with
  | ValueError msg => msg
  | KeyError key => String.append "'" (String.append key "'")
  | IndexError msg => msg
  | LibraryError msg => msg
  end.

Inductive result (A : Type) : Type :=
| Ok (a : A)
| Raise (e : exn).
Arguments Ok {A} a.
Arguments Raise {A} e.

Definition bindR {A B} (r : result A) (k : A -> result B) : result B :=
  match r with
  | Ok a => k a
  | Raise e => Raise e
  end.

Declare Scope py_scope.
Delimit Scope py_scope with py.
Notation "x <~ e ;; k" := (bindR e (fun x => k))
  (at level 61, e at next level, right associativity) : py_scope.

(** ** Rational comparisons the code performs on floats *)

Definition Qltb (x y : Q) : bool :=
  match (x ?= y)%Q with
  | Lt => true
  | _ => false
  end.

Definition Qeqb0 (x : Q) : bool := Z.eqb (Qnum x) 0.

(** ** Tables *)

Definition date := Z.

Record transaction := {
  tx_id : string;
  tx_company : string;
  tx_amount : Z;
  tx_date : date;
  tx_category : string
}.

(** A Python dict with string keys, in insertion order. The accuracy
    metrics are such a dict; [None] is the undefined marker. *)
Inductive npfloat : Type :=
| Fin (q : Q)
| PInf
| NInf
| NaN.

Definition dict (V : Type) := list (string * V).

Definition metrics := dict (option npfloat).

Record forecast_run := {
  run_id : string;
  run_status : string;
  run_error_message : option string;
  run_processing_time_ms : option Z;
  run_accuracy_metrics : option metrics
}.

Record forecast_row := {
  f_company : string;
  f_run : string;
  f_date : date;
  f_predicted_balance : Z;
  f_predicted_inflow : Z;
  f_predicted_outflow : Z;
  f_confidence_lower : Z;
  f_confidence_upper : Z;
  f_confidence_level : Q;
  f_scenario : string;
  f_model_version : string
}.

Record bank_account := {
  acct_company : string;
  acct_current_balance : Z;
  acct_is_active : bool
}.

Record alert := {
  al_company : string;
  al_type : string;
  al_severity : string;
  al_title : string;
  al_message : string;
  al_predicted_date : date;
  al_predicted_amount : Z;
  al_status : string
}.

Record database := {
  transactions : list transaction;
  forecast_runs : list forecast_run;
  forecasts : list forecast_row;
  bank_accounts : list bank_account;
  alerts : list alert
}.

(** ** SQL fragments: ORDER BY, SUM *)

Section OrderBy.
Context {A : Type} (key : A -> Z).

Fixpoint insert_by (x : A) (l : list A) : list A :=
  match l with
  | [] => [x]
  | y :: l' => if key x <? key y then x :: y :: l' else y :: insert_by x l'
  end.

(** [ORDER BY key] ascending; rows with equal keys keep their table order. *)
Definition order_by (l : list A) : list A :=
  fold_right (fun x acc => insert_by x acc) [] l.
End OrderBy.

(** [SELECT SUM(col)]: NULL over no row. *)
Definition sql_sum (l : list Z) : option Z :=
  match l with
  | [] => None
  | _ => Some (fold_right Z.add 0 l)
  end.

(** ** Sessions *)

Record session := {
  work : database;
  committed : database;
  snapshots : list database
}.

Definition M (A : Type) : Type := session -> result A * session.

Definition ret {A} (a : A) : M A := fun s => (Ok a, s).

Definition raise {A} (e : exn) : M A := fun s => (Raise e, s).

Definition bindM {A B} (m : M A) (k : A -> M B) : M B :=
  fun s =>
    match m s with
    | (Ok a, s') => k a s'
    | (Raise e, s') => (Raise e, s')
    end.

Notation "x <- e ;; k" := (bindM e (fun x => k))
  (at level 61, e at next level, right associativity) : py_scope.
Notation "e ;; k" := (bindM e (fun _ => k))
  (at level 61, right associativity) : py_scope.

Definition lift {A} (r : result A) : M A := fun s => (r, s).

(** [session.execute] of a statement that writes. *)
Definition execute (stmt : database -> database) : M unit :=
  fun s => (Ok tt, {| work := stmt (work s); committed := committed s;
                      snapshots := snapshots s |}).

(** [session.execute] of a query. *)
Definition query {A} (q : database -> A) : M A :=
  fun s => (Ok (q (work s)), s).

(** [session.commit()]: the working copy becomes what other sessions see. *)
Definition commit : M unit :=
  fun s => (Ok tt, {| work := work s; committed := work s;
                      snapshots := (snapshots s ++ [work s])%list |}).

(** Leaving [with SessionLocal() as session] on an exception drops what was
    not committed; the handler runs [body] in a new session. *)
Definition try_except {A} (body : M A) (handler : exn -> M A) : M A :=
  fun s =>
    match body s with
    | (Ok a, s') => (Ok a, s')
    | (Raise e, s') =>
        handler e {| work := committed s'; committed := committed s';
                     snapshots := snapshots s' |}
    end.

Definition open_session (db : database) : session :=
  {| work := db; committed := db; snapshots := [] |}.

(** ** NumPy floats and arrays *)

Definition Qneg (q : Q) : bool := Z.ltb (Qnum q) 0.

Definition is_neg (x : npfloat) : bool :=
  match x with
  | Fin q => Qneg q
  | NInf => true
  | _ => false
  end.

Definition inf_of (negative : bool) : npfloat :=
  if negative then NInf else PInf.

Definition np_neg (x : npfloat) : npfloat :=
  match x with
  | Fin q => Fin (- q)
  | PInf => NInf
  | NInf => PInf
  | NaN => NaN
  end.

Definition np_add (x y : npfloat) : npfloat :=
  match x, y with
  | NaN, _ => NaN
  | _, NaN => NaN
  | Fin a, Fin b => Fin (a + b)
  | PInf, NInf => NaN
  | NInf, PInf => NaN
  | PInf, _ => PInf
  | NInf, _ => NInf
  | Fin _, i => i
  end.

Definition np_sub (x y : npfloat) : npfloat := np_add x (np_neg y).

Definition np_mul (x y : npfloat) : npfloat :=
  match x, y with
  | NaN, _ => NaN
  | _, NaN => NaN
  | Fin a, Fin b => Fin (a * b)
  | Fin a, i => if Qeqb0 a then NaN else inf_of (xorb (Qneg a) (is_neg i))
  | i, Fin b => if Qeqb0 b then NaN else inf_of (xorb (is_neg i) (Qneg b))
  | i, j => inf_of (xorb (is_neg i) (is_neg j))
  end.

(** NumPy does not raise on a zero divisor: [x / 0.0] is [inf], [-inf] or
    [nan] (with a RuntimeWarning). *)
Definition np_div (x y : npfloat) : npfloat :=
  match x, y with
  | NaN, _ => NaN
  | _, NaN => NaN
  | Fin a, Fin b =>
      if Qeqb0 b then (if Qeqb0 a then NaN else inf_of (Qneg a))
      else Fin (a / b)
  | Fin _, _ => Fin 0
  | i, Fin b => inf_of (xorb (is_neg i) (Qneg b))
  | _, _ => NaN
  end.

Definition np_abs (x : npfloat) : npfloat :=
  match x with
  | Fin q => Fin (Qabs q)
  | PInf => PInf
  | NInf => PInf
  | NaN => NaN
  end.

(** Round half to even, the rule of [rint]. *)
Definition rint (q : Q) : Z :=
  let f := Qfloor q in
  match (q - inject_Z f ?= 1 # 2)%Q with
  | Lt => f
  | Gt => f + 1
  | Eq => if Z.even f then f else f + 1
  end.

(** [round(x, 2)] on a NumPy float. *)
Definition round2 (x : npfloat) : npfloat :=
  match x with
  | Fin q => Fin (inject_Z (rint (q * 100)) / 100)
  | other => other
  end.

Definition ndarray := list npfloat.

Fixpoint zip_with {A B C} (f : A -> B -> C) (xs : list A) (ys : list B) : list C :=
  match xs, ys with
  | x :: xs', y :: ys' => f x y :: zip_with f xs' ys'
  | _, _ => []
  end.

(** An elementwise binary operation with NumPy's broadcasting of
    one-dimensional arrays: equal lengths pair by position, a length-one
    operand is repeated, anything else is a ValueError. *)
Definition broadcast (f : npfloat -> npfloat -> npfloat) (xs ys : ndarray)
  : result ndarray :=
  if Nat.eqb (length xs) (length ys) then Ok (zip_with f xs ys)
  else match xs, ys with
       | _, [y] => Ok (map (fun x => f x y) xs)
       | [x], _ => Ok (map (f x) ys)
       | _, _ => Raise (ValueError "operands could not be broadcast together")
       end.

Definition np_sum (xs : ndarray) : npfloat := fold_left np_add xs (Fin 0).

Definition np_mean (xs : ndarray) : npfloat :=
  np_div (np_sum xs) (Fin (inject_Z (Z.of_nat (length xs)))).

(** [int(x)] on a float truncates toward zero. *)
Definition py_int (q : Q) : Z := Z.quot (Qnum q) (Z.pos (Qden q)).

(** ** Binary64 rounding *)

Definition pow2 (k : Z) : Q :=
  if Z.leb 0 k then inject_Z (2 ^ k) else 1 # Z.to_pos (2 ^ (- k)).

(** The exponent of a positive rational: the [k] with
    [2 ^ k <= a < 2 ^ (k + 1)]. *)
Definition log2_floor (a : Q) : Z :=
  let k := Z.log2 (Qnum a) - Z.log2 (Z.pos (Qden a)) in
  if Qle_bool (pow2 k) a then k else k - 1.

(** The binary64 value nearest to [q], ties to the even significand: [q] is
    scaled so that its magnitude lies in [2 ^ 52, 2 ^ 53), rounded to an
    integer and scaled back. *)
Definition b64 (q : Q) : Q :=
  if Qeqb0 q then 0%Q
  else
    let a := Qabs q in
    let scale := pow2 (52 - log2_floor a) in
    let m := (inject_Z (rint (a * scale)) / scale)%Q in
    Qred (if Qneg q then - m else m)%Q.

(** [x + y] and [x * y] on floats. *)
Definition fadd (x y : Q) : Q := b64 (b64 x + b64 y).

Definition fmul (x y : Q) : Q := b64 (b64 x * b64 y).

(** ** Data frames of the forecaster *)

(** A frame with columns [ds] and one value column ([amount] or [y]). *)
Definition frame := list (date * Q).

Record forecast_point := {
  ds : date;
  yhat : Q;
  yhat_lower : Q;
  yhat_upper : Q
}.

Inductive seasonality : Type := Auto | Enabled | Disabled.

Record prophet_params := {
  interval_width : Q;
  changepoint_prior_scale : Q;
  yearly_seasonality : seasonality;
  weekly_seasonality : seasonality;
  daily_seasonality : seasonality
}.

(** [Prophet(...)] with only the seasonalities given keeps the library's
    defaults for the other arguments. *)
Definition prophet_defaults (yearly weekly : seasonality) : prophet_params :=
  {| interval_width := 0.80; changepoint_prior_scale := 0.05;
     yearly_seasonality := yearly; weekly_seasonality := weekly;
     daily_seasonality := Auto |}.

Fixpoint dict_get {V} (d : dict V) (k : string) : result V :=
  match d with
  | [] => Raise (KeyError k)
  | (k', v) :: d' => if String.eqb k' k then Ok v else dict_get d' k
  end.

Definition interval_width_table : dict Q :=
  [("pessimistic"%string, 0.95%Q); ("baseline"%string, 0.80%Q);
   ("optimistic"%string, 0.65%Q)].

Definition changepoint_scale_table : dict Q :=
  [("pessimistic"%string, 0.1%Q); ("baseline"%string, 0.05%Q);
   ("optimistic"%string, 0.02%Q)].

Local Open Scope py_scope.

(** ** The service *)

Record anomaly_request := {
  company_id : string;
  transaction_ids : list string
}.

Record anomaly_record := {
  transactionId : string;
  amount : Q;
  anomaly_date : date;
  category : string;
  score : Q
}.

Definition feature := (Q * Z)%type.

Fixpoint mapR {A B} (f : A -> result B) (l : list A) : result (list B) :=
  match l with
  | [] => Ok []
  | x :: l' => y <~ f x ;; ys <~ mapR f l' ;; Ok (y :: ys)
  end.

(** Indices of the entries equal to [v], as [np.where(a == v)[0]]. *)
Fixpoint np_where_eq (v : Z) (a : list Z) (from : nat) : list nat :=
  match a with
  | [] => []
  | x :: a' =>
      if Z.eqb x v then from :: np_where_eq v a' (S from)
      else np_where_eq v a' (S from)
  end.

(** [Series.dt.dayofweek], Monday = 0; day 0 is 1970-01-01, a Thursday. *)
Definition dayofweek (d : date) : Z := (d + 3) mod 7.

Definition undefined_metrics : metrics :=
  [("mape"%string, None); ("rmse"%string, None); ("mae"%string, None)].

Section Service.

(** [Prophet(params).fit(df)], [make_future_dataframe(periods)] and
    [predict] in one call: the rows of the library's forecast frame, or
    the exception the library raises. *)
Variable prophet_fit_predict :
  prophet_params -> frame -> Z -> result (list forecast_point).

(** [np.sqrt] on a non-negative finite float. *)
Variable sqrt_float : Q -> Q.

(** [IsolationForest(contamination, random_state).fit_predict(X)] and the
    fitted model's [score_samples]. *)
Variable isolation_forest_fit_predict : Q -> Z -> list feature -> list Z.
Variable isolation_forest_score_samples :
  Q -> Z -> list feature -> list feature -> list Q.

(** [settings.model_version], read from the environment at start-up. *)
Variable model_version : string.

(** Milliseconds elapsed on the wall clock when the run completes. *)
Variable processing_time : Z.

(** The unique constraints of the [alerts] table belong to the schema,
    which the service's source does not contain: [alert_conflict new old]
    tells whether inserting [new] conflicts with the stored row [old]. *)
Variable alert_conflict : alert -> alert -> bool.

Definition np_sqrt (x : npfloat) : npfloat :=
  match x with
  | Fin q => if Qneg q then NaN else Fin (sqrt_float q)
  | PInf => PInf
  | _ => NaN
  end.

(** *** fetch_transactions *)

(** One row per distinct [transaction_date::date] of the company, with
    the sum of the amounts of that day, ordered by day; the amount is
    then converted from cents. *)
Definition fetch_transactions (company : string) (db : database) : frame :=
  let rows := filter (fun t => String.eqb (tx_company t) company)
                     (transactions db) in
  let days := order_by (fun d => d) (nodup Z.eq_dec (map tx_date rows)) in
  map (fun d =>
         let group := filter (fun t => Z.eqb (tx_date t) d) rows in
         (d, (inject_Z (fold_right Z.add 0%Z (map tx_amount group)) / 100)%Q))
      days.

(** *** prepare_prophet_data *)

Fixpoint cumsum (acc : Q) (l : frame) : frame :=
  match l with
  | [] => []
  | (d, a) :: l' => (d, fadd acc a) :: cumsum (fadd acc a) l'
  end.

Definition prepare_prophet_data (df : frame) : frame := cumsum 0%Q df.

(** *** generate_prophet_forecast *)

Definition ds_max (df : frame) : option date :=
  match df with
  | [] => None
  | (d, _) :: df' => Some (fold_left Z.max (map fst df') d)
  end.

Definition generate_prophet_forecast (df : frame) (horizon_days : Z)
    (scenario : string) : result (list forecast_point) :=
  width <~ dict_get interval_width_table scenario ;;
  changepoint_scale <~ dict_get changepoint_scale_table scenario ;;
  let model := {| interval_width := width;
                  changepoint_prior_scale := changepoint_scale;
                  yearly_seasonality := Enabled;
                  weekly_seasonality := Enabled;
                  daily_seasonality := Disabled |} in
  forecast <~ prophet_fit_predict model df horizon_days ;;
  Ok (filter (fun p => match ds_max df with
                       | Some last => Z.ltb last (ds p)
                       | None => false
                       end) forecast).

(** *** store_forecasts *)

Definition forecast_row_of (forecast_run_id company : string)
    (scenario : string) (row : forecast_point) : forecast_row :=
  let predicted_balance := py_int (fmul (yhat row) 100) in
  let confidence_lower := py_int (fmul (yhat_lower row) 100) in
  let confidence_upper := py_int (fmul (yhat_upper row) 100) in
  {| f_company := company;
     f_run := forecast_run_id;
     f_date := ds row;
     f_predicted_balance := predicted_balance;
     f_predicted_inflow := Z.max 0 predicted_balance;
     f_predicted_outflow := Z.abs (Z.min 0 predicted_balance);
     f_confidence_lower := confidence_lower;
     f_confidence_upper := confidence_upper;
     f_confidence_level := 0.80;
     f_scenario := scenario;
     f_model_version := model_version |}.

Definition insert_forecast (r : forecast_row) (db : database) : database :=
  {| transactions := transactions db;
     forecast_runs := forecast_runs db;
     forecasts := forecasts db ++ [r];
     bank_accounts := bank_accounts db;
     alerts := alerts db |}.

Fixpoint insert_forecasts (forecast_run_id company : string)
    (forecasts : list forecast_point) (scenario : string) : M unit :=
  match forecasts with
  | [] => ret tt
  | row :: rest =>
      execute (insert_forecast
                 (forecast_row_of forecast_run_id company scenario row)) ;;
      insert_forecasts forecast_run_id company rest scenario
  end.

Definition store_forecasts (forecast_run_id company : string)
    (forecasts : list forecast_point) (scenario : string) : M unit :=
  insert_forecasts forecast_run_id company forecasts scenario ;;
  commit.

(** *** calculate_accuracy *)

Definition iloc_to_last (n : nat) {A} (l : list A) : list A :=
  firstn (length l - n) l.

Definition iloc_last (n : nat) {A} (l : list A) : list A :=
  skipn (length l - n) l.

Definition isin (d : date) (ds : list date) : bool :=
  existsb (Z.eqb d) ds.

Definition square (x : npfloat) : npfloat := np_mul x x.

Definition calculate_accuracy (historical : frame)
    (forecast : list forecast_point) : result metrics :=
  if Nat.ltb (length historical) 120 then Ok undefined_metrics
  else
    let train := iloc_to_last 30 historical in
    let test := iloc_last 30 historical in
    predictions <~ prophet_fit_predict (prophet_defaults Enabled Enabled)
                                       train 30 ;;
    let predictions :=
      filter (fun p => isin (ds p) (map fst test)) predictions in
    if Nat.eqb (length predictions) 0 then Ok undefined_metrics
    else
      let y_true := map (fun r => Fin (snd r)) test in
      let y_pred := firstn (length y_true)
                           (map (fun p => Fin (yhat p)) predictions) in
      diff <~ broadcast np_sub y_true y_pred ;;
      ratio <~ broadcast np_div diff y_true ;;
      let mape := np_mul (np_mean (map np_abs ratio)) (Fin 100) in
      let rmse := np_sqrt (np_mean (map square diff)) in
      let mae := np_mean (map np_abs diff) in
      Ok [("mape"%string, Some (round2 mape));
          ("rmse"%string, Some (round2 rmse));
          ("mae"%string, Some (round2 mae))].

(** *** generate_forecast_alerts *)

Definition baseline_forecasts (forecast_run_id : string) (db : database)
  : list (date * Z * Z) :=
  map (fun f => (f_date f, f_predicted_balance f, f_confidence_lower f))
      (order_by f_date
         (filter (fun f => String.eqb (f_run f) forecast_run_id
                           && String.eqb (f_scenario f) "baseline")
                 (forecasts db))).

Definition active_balance (company : string) (db : database) : option Z :=
  sql_sum (map acct_current_balance
             (filter (fun a => String.eqb (acct_company a) company
                               && acct_is_active a)
                     (bank_accounts db))).

(** [balance_result.scalar() or 0] *)
Definition scalar_or_zero (v : option Z) : Z :=
  match v with
  | Some b => if Z.eqb b 0 then 0 else b
  | None => 0
  end.

Definition cash_shortage_alert (company : string) (d : date) (amount : Z)
  : alert :=
  {| al_company := company;
     al_type := "cash_shortage";
     al_severity := "critical";
     al_title := "Low Cash Balance Predicted";
     al_message :=
       "Forecast indicates cash balance may drop to critically low levels.";
     al_predicted_date := d;
     al_predicted_amount := amount;
     al_status := "active" |}.

(** [INSERT INTO alerts ... ON CONFLICT DO NOTHING] *)
Definition insert_alert (a : alert) (db : database) : database :=
  if existsb (alert_conflict a) (alerts db) then db
  else {| transactions := transactions db;
          forecast_runs := forecast_runs db;
          forecasts := forecasts db;
          bank_accounts := bank_accounts db;
          alerts := alerts db ++ [a] |}.

(** [predicted < current_balance * 0.2] *)
Definition below_threshold (predicted current_balance : Z) : bool :=
  Qltb (inject_Z predicted) (inject_Z current_balance * 0.2).

Fixpoint shortage_loop (company : string) (current_balance : Z)
    (forecasts : list (date * Z * Z)) : M unit :=
  match forecasts with
  | [] => ret tt
  | (d, predicted, lower) :: rest =>
      if below_threshold predicted current_balance
      then execute (insert_alert (cash_shortage_alert company d predicted))
      else shortage_loop company current_balance rest
  end.

Definition generate_forecast_alerts (company forecast_run_id : string)
  : M unit :=
  forecasts <- query (baseline_forecasts forecast_run_id) ;;
  balance <- query (active_balance company) ;;
  let current_balance := scalar_or_zero balance in
  shortage_loop company current_balance forecasts ;;
  commit.

(** *** run_forecast_pipeline *)

Definition update_runs (forecast_run_id : string)
    (f : forecast_run -> forecast_run) (db : database) : database :=
  {| transactions := transactions db;
     forecast_runs :=
       map (fun r => if String.eqb (run_id r) forecast_run_id then f r else r)
           (forecast_runs db);
     forecasts := forecasts db;
     bank_accounts := bank_accounts db;
     alerts := alerts db |}.

Definition mark_processing (forecast_run_id : string) : database -> database :=
  update_runs forecast_run_id
    (fun r => {| run_id := run_id r;
                 run_status := "processing";
                 run_error_message := run_error_message r;
                 run_processing_time_ms := run_processing_time_ms r;
                 run_accuracy_metrics := run_accuracy_metrics r |}).

(** The update that the completing statement describes. [completed_at =
    NOW()] is left out, and the metrics are kept as the dict instead of the
    text the code renders for the [jsonb] column. The pipeline never gets
    it applied, see [execute_rejected]. *)
Definition mark_completed (forecast_run_id : string) (time_ms : Z)
    (accuracy_metrics : metrics) : database -> database :=
  update_runs forecast_run_id
    (fun r => {| run_id := run_id r;
                 run_status := "completed";
                 run_error_message := run_error_message r;
                 run_processing_time_ms := Some time_ms;
                 run_accuracy_metrics := Some accuracy_metrics |}).

Definition mark_failed (forecast_run_id : string) (error : string)
  : database -> database :=
  update_runs forecast_run_id
    (fun r => {| run_id := run_id r;
                 run_status := "failed";
                 run_error_message := Some error;
                 run_processing_time_ms := run_processing_time_ms r;
                 run_accuracy_metrics := run_accuracy_metrics r |}).

Definition scenarios : list string :=
  ["pessimistic"%string; "baseline"%string; "optimistic"%string].

Definition insufficient_history : exn :=
  ValueError "Insufficient transaction history (need 90+ days)".

(** The body of [for scenario in scenarios], with the loop-carried
    [accuracy_metrics]. *)
Fixpoint scenario_loop (forecast_run_id company : string) (horizon_days : Z)
    (df : frame) (todo : list string) (accuracy_metrics : metrics)
  : M metrics :=
  match todo with
  | [] => ret accuracy_metrics
  | scenario :: rest =>
      forecasts <- lift (generate_prophet_forecast df horizon_days scenario) ;;
      store_forecasts forecast_run_id company forecasts scenario ;;
      accuracy_metrics <-
        (if String.eqb scenario "baseline"
         then lift (calculate_accuracy df forecasts)
         else ret accuracy_metrics) ;;
      scenario_loop forecast_run_id company horizon_days df rest
                    accuracy_metrics
  end.

(** [if len(transactions) < 90: raise ValueError(...)] *)
Definition check_history (transactions : frame) : result unit :=
  if Nat.ltb (length transactions) 90 then Raise insufficient_history
  else Ok tt.

(** What [session.execute] raises for the completing UPDATE. The wording of
    the driver's message is not modelled, this string stands for it; no
    property depends on its text. *)
Definition rejected_statement : exn :=
  LibraryError "statement rejected: accuracy_metrics = :metrics::jsonb".

(** [session.execute(text(sql), params)] for a statement that cannot run.
    The completing UPDATE is written [accuracy_metrics = :metrics::jsonb].
    [text()] finds its bind names with the pattern
    [(?<![:\w\x5c]):(\w+)(?!:)], which refuses a name that a colon follows:
    no placeholder named [metrics] is bound to the value passed, the
    statement is rejected and the call raises. [stmt], the update the text
    was meant to be, is not applied. *)
Definition execute_rejected (stmt : database -> database) : M unit :=
  raise rejected_statement.

(** The [try] block. *)
Definition pipeline_body (forecast_run_id company : string)
    (horizon_days : Z) : M unit :=
  execute (mark_processing forecast_run_id) ;;
  commit ;;
  transactions <- query (fetch_transactions company) ;;
  lift (check_history transactions) ;;
  let df := prepare_prophet_data transactions in
  accuracy_metrics <-
    scenario_loop forecast_run_id company horizon_days df scenarios [] ;;
  execute_rejected
    (mark_completed forecast_run_id processing_time accuracy_metrics) ;;
  commit ;;
  generate_forecast_alerts company forecast_run_id.

(** The [except Exception as e] block. *)
Definition pipeline_handler (forecast_run_id : string) (e : exn) : M unit :=
  execute (mark_failed forecast_run_id (str_exn e)) ;;
  commit.

Definition run_forecast_pipeline (forecast_run_id company : string)
    (horizon_days : Z) : M unit :=
  try_except (pipeline_body forecast_run_id company horizon_days)
             (pipeline_handler forecast_run_id).

(** *** detect_anomalies *)

Definition select_transactions (request : anomaly_request) (db : database)
  : list transaction :=
  match transaction_ids request with
  | _ :: _ =>
      filter (fun t => String.eqb (tx_company t) (company_id request)
                       && existsb (String.eqb (tx_id t))
                                  (transaction_ids request))
             (transactions db)
  | [] =>
      firstn 1000
        (order_by (fun t => - tx_date t)
           (filter (fun t => String.eqb (tx_company t) (company_id request))
                   (transactions db)))
  end.

Definition features_of (rows : list transaction) : list feature :=
  map (fun t => ((inject_Z (Z.abs (tx_amount t)) / 100)%Q,
                 dayofweek (tx_date t))) rows.

Definition index_error {A} : result A :=
  Raise (IndexError "index out of bounds").

Definition detect_anomalies (request : anomaly_request) (db : database)
  : result (list anomaly_record * nat) :=
  let rows := select_transactions request db in
  if Nat.ltb (length rows) 100 then Ok ([], length rows)
  else
    let features := features_of rows in
    let predictions := isolation_forest_fit_predict 0.05 42 features in
    let anomaly_indices := np_where_eq (-1) predictions 0 in
    anomalies <~
      mapR (fun idx =>
              match nth_error rows idx with
              | None => index_error
              | Some row =>
                  match isolation_forest_score_samples 0.05 42 features
                          (firstn 1 (skipn idx features)) with
                  | [] => index_error
                  | s :: _ =>
                      Ok {| transactionId := tx_id row;
                            amount := inject_Z (tx_amount row) / 100;
                            anomaly_date := tx_date row;
                            category := tx_category row;
                            score := s |}
                  end
              end)
           anomaly_indices ;;
    Ok (anomalies, length rows).

End Service.


(** ** Running the service on a database *)

Definition date_of (r : date * Z * Z) : date := fst (fst r).

Definition predicted_of (r : date * Z * Z) : Z := snd (fst r).

(** What the scan of the alert deriver writes to a database. *)
Definition shortage_write (alert_conflict : alert -> alert -> bool)
    (company : string) (current_balance : Z)
    (forecasts : list (date * Z * Z)) (db : database) : database :=
  work (snd (shortage_loop alert_conflict company current_balance forecasts
                           (open_session db))).

(** The session that [generate_forecast_alerts] leaves when it is started
    on [db]. *)
Definition alerts_run (alert_conflict : alert -> alert -> bool)
    (company run : string) (db : database) : session :=
  snd (generate_forecast_alerts alert_conflict company run (open_session db)).

(** The [forecasts] table with [rows] appended, the net effect of the
    inserts of one [store_forecasts] call. *)
Definition append_forecasts (rows : list forecast_row) (db : database)
  : database :=
  {| transactions := transactions db;
     forecast_runs := forecast_runs db;
     forecasts := forecasts db ++ rows;
     bank_accounts := bank_accounts db;
     alerts := alerts db |}.

(** The rows [store_forecasts] derives from a forecast frame. *)
Definition forecast_rows (model_version forecast_run_id company : string)
    (scenario : string) (forecasts : list forecast_point) : list forecast_row :=
  map (forecast_row_of model_version forecast_run_id company scenario)
      forecasts.

(** The two values a sum of absolute values takes once a term is not
    finite. *)
Definition inf_or_nan (x : npfloat) : Prop := x = PInf \/ x = NaN.

(** The rows of the prediction frame whose date occurs in the test window,
    as [predictions[predictions["ds"].isin(test["ds"])]] selects them. *)
Definition date_matched (test : frame) (predictions : list forecast_point)
  : list forecast_point :=
  filter (fun p => isin (ds p) (map fst test)) predictions.

(** The holdout comparison in the words of the specification: MAPE, RMSE
    and MAE over the aligned pairs (true value, predicted value), rounded
    to two decimals as the evaluator reports them. *)
Definition holdout_metrics (sqrt_float : Q -> Q) (pairs : list (Q * Q))
  : metrics :=
  let error := fun tp : Q * Q => np_sub (Fin (fst tp)) (Fin (snd tp)) in
  let mape :=
    np_mul (np_mean (map (fun tp => np_abs (np_div (error tp) (Fin (fst tp))))
                         pairs))
           (Fin 100) in
  let rmse :=
    np_sqrt sqrt_float (np_mean (map (fun tp => square (error tp)) pairs)) in
  let mae := np_mean (map (fun tp => np_abs (error tp)) pairs) in
  [("mape"%string, Some (round2 mape));
   ("rmse"%string, Some (round2 rmse));
   ("mae"%string, Some (round2 mae))].

(** The session that [run_forecast_pipeline] leaves when it is started on
    [db], and the outcome of its [try] block. *)
Definition pipeline_run prophet sqrt_float model_version processing_time
    alert_conflict (run company : string) (horizon_days : Z) (db : database)
  : session :=
  snd (run_forecast_pipeline prophet sqrt_float model_version processing_time
         alert_conflict run company horizon_days (open_session db)).

Definition pipeline_try prophet sqrt_float model_version processing_time
    alert_conflict (run company : string) (horizon_days : Z) (db : database)
  : result unit :=
  fst (pipeline_body prophet sqrt_float model_version processing_time
         alert_conflict run company horizon_days (open_session db)).

(** Some row of [forecast_runs] for [run] has the given status. *)
Definition run_has_status (run status : string) (db : database) : Prop :=
  exists r, In r (forecast_runs db) /\ run_id r = run /\ run_status r = status.

(** The calendar days on which the company has a transaction. *)
Definition distinct_days (company : string) (db : database) : list date :=
  nodup Z.eq_dec
        (map tx_date
             (filter (fun t => String.eqb (tx_company t) company)
                     (transactions db))).

(** The session after a failed [try] block: the handler's update on top of
    what was committed. *)
Definition failed_session (run : string) (e : exn) (last : database)
    (published : list database) : session :=
  let db' := mark_failed run (str_exn e) last in
  {| work := db'; committed := db'; snapshots := published ++ [db'] |}.

(** The status column of the rows of [run]. *)
Definition status_of (run : string) (db : database) : list string :=
  map run_status
      (filter (fun r => String.eqb (run_id r) run) (forecast_runs db)).


(** ** Totals and observations used by the properties *)

Definition zsum (l : list Z) : Z := fold_right Z.add 0 l.

(** The company's transactions, and their amounts on one day. *)
Definition company_rows (company : string) (db : database) : list transaction :=
  filter (fun t => String.eqb (tx_company t) company) (transactions db).

Definition day_total (company : string) (db : database) (d : date) : Z :=
  zsum (map tx_amount
            (filter (fun t => Z.eqb (tx_date t) d) (company_rows company db))).

(** The [periods] calendar days that follow [last]. *)
Definition following_days (last : date) (periods : Z) : list date :=
  map (fun i => last + Z.of_nat i) (seq 1 (Z.to_nat periods)).

(** The alert the scan of [shortage_loop] issues, if any: the one of the
    first point below the threshold. *)
Fixpoint first_shortage (company : string) (current_balance : Z)
    (forecasts : list (date * Z * Z)) : option alert :=
  match forecasts with
  | [] => None
  | (d, predicted, lower) :: rest =>
      if below_threshold predicted current_balance
      then Some (cash_shortage_alert company d predicted)
      else first_shortage company current_balance rest
  end.

(** The database a run of the alert deriver publishes. *)
Definition after_alerts (alert_conflict : alert -> alert -> bool)
    (company run : string) (db : database) : database :=
  committed (alerts_run alert_conflict company run db).

(** The rows of [forecast_runs] that belong to other runs. *)
Definition other_runs (run : string) (db : database) : list forecast_run :=
  filter (fun r => negb (String.eqb (run_id r) run)) (forecast_runs db).

(** What a run of the pipeline for [run] and [company] may have changed
    between [db] and [db']: its own row of [forecast_runs] and appended
    forecast rows of its own. *)
Definition footprint (model_version run company : string)
    (db db' : database) : Prop :=
  transactions db' = transactions db
  /\ bank_accounts db' = bank_accounts db
  /\ other_runs run db' = other_runs run db
  /\ length (forecast_runs db') = length (forecast_runs db)
  /\ exists added,
       forecasts db' = forecasts db ++ added
       /\ Forall (fun r => f_run r = run /\ f_company r = company
                           /\ In (f_scenario r) scenarios
                           /\ f_model_version r = model_version)
                 added.

(** What [b64] does to a positive number: scale, round to an integer,
    scale back. *)
Definition round_pos (a : Q) : Q :=
  let scale := pow2 (52 - log2_floor a) in
  (inject_Z (rint (a * scale)) / scale)%Q.

(** A feature matrix as the scorer builds it: at least 100 rows, a
    non-negative amount and a day of the week in each. *)
Definition valid_features (X : list feature) : Prop :=
  (100 <= length X)%nat
  /\ Forall (fun x => (0 <= fst x)%Q /\ 0 <= snd x <= 6) X.

(** * Sample data

    Concrete tables and model stand-ins on which the properties below are
    evaluated. *)

(** A schema whose only unique key is the generated [id]: no insert into
    [alerts] ever conflicts. *)
Definition no_conflict (new old : alert) : bool := false.

Definition sample_forecast_row (run scenario : string) (d : date)
    (balance : Z) : forecast_row :=
  {| f_company := "acme";
     f_run := run;
     f_date := d;
     f_predicted_balance := balance;
     f_predicted_inflow := Z.max 0 balance;
     f_predicted_outflow := Z.abs (Z.min 0 balance);
     f_confidence_lower := balance - 50;
     f_confidence_upper := balance + 50;
     f_confidence_level := 0.80;
     f_scenario := scenario;
     f_model_version := "1.0.0" |}.

(** Baseline forecast 1000, 800, 150, 100 on days 1..4 (stored out of
    order) against two active accounts holding 600 + 400. *)
Definition shortage_db : database :=
  {| transactions := [];
     forecast_runs := [];
     forecasts :=
       [sample_forecast_row "run-1" "baseline" 3 150;
        sample_forecast_row "run-1" "pessimistic" 1 (-5);
        sample_forecast_row "run-1" "baseline" 1 1000;
        sample_forecast_row "run-1" "baseline" 4 100;
        sample_forecast_row "run-2" "baseline" 1 0;
        sample_forecast_row "run-1" "baseline" 2 800];
     bank_accounts :=
       [{| acct_company := "acme"; acct_current_balance := 600;
           acct_is_active := true |};
        {| acct_company := "acme"; acct_current_balance := 400;
           acct_is_active := true |};
        {| acct_company := "acme"; acct_current_balance := 9999;
           acct_is_active := false |}];
     alerts := [] |}.

(** A company whose only active account is empty (current balance 0) and
    whose baseline forecast goes from 200 to -100. *)
Definition overdraft_db : database :=
  {| transactions := [];
     forecast_runs := [];
     forecasts :=
       [sample_forecast_row "run-1" "baseline" 1 200;
        sample_forecast_row "run-1" "baseline" 2 (-100)];
     bank_accounts :=
       [{| acct_company := "acme"; acct_current_balance := 0;
           acct_is_active := true |};
        {| acct_company := "acme"; acct_current_balance := 300;
           acct_is_active := false |}];
     alerts := [] |}.

(** The same company with a forecast that stays non-negative. *)
Definition solvent_db : database :=
  {| transactions := [];
     forecast_runs := [];
     forecasts :=
       [sample_forecast_row "run-1" "baseline" 1 200;
        sample_forecast_row "run-1" "baseline" 2 0];
     bank_accounts :=
       [{| acct_company := "acme"; acct_current_balance := 0;
           acct_is_active := true |};
        {| acct_company := "acme"; acct_current_balance := 300;
           acct_is_active := false |}];
     alerts := [] |}.

(** A stand-in for Prophet that predicts the constant [v] (band [v - 1],
    [v + 1]) on the frame Prophet forecasts on: the dates it was fitted on
    followed by the next [periods] calendar days. *)
Definition flat_prophet (v : Q) (params : prophet_params) (df : frame)
    (periods : Z) : result (list forecast_point) :=
  let last := match ds_max df with Some d => d | None => 0 end in
  let future := map (fun i => last + Z.of_nat i) (seq 1 (Z.to_nat periods)) in
  Ok (map (fun d => {| ds := d; yhat := v; yhat_lower := v - 1;
                       yhat_upper := v + 1 |})
          (map fst df ++ future)).

(** A model that cannot be fitted. *)
Definition failing_prophet (params : prophet_params) (df : frame)
    (periods : Z) : result (list forecast_point) :=
  Raise (LibraryError "fit failed").

(** A stand-in for [np.sqrt]: the root of [n / d] from the integer square
    root of [n * d], carried to six more decimal places. *)
Definition sample_sqrt (q : Q) : Q :=
  Z.sqrt (Qnum q * Z.pos (Qden q) * 10 ^ 12) # (Qden q * 1000000).

(** Balance series on the days [1 .. n]: [value i] on day [i]. *)
Definition daily_series (n : nat) (value : nat -> Q) : frame :=
  map (fun i => (Z.of_nat i, value i)) (seq 1 n).

(** 100 days at balance 250. *)
Definition short_series : frame := daily_series 100 (fun _ => 250%Q).

(** 120 consecutive days at balance 250. *)
Definition steady_series : frame := daily_series 120 (fun _ => 250%Q).

(** 120 consecutive days; the balance is 250 until it reaches exactly 0 on
    the last day. *)
Definition drained_series : frame :=
  daily_series 120 (fun i => if Nat.eqb i 120 then 0%Q else 250%Q).

(** 120 distinct days with no transaction on day 120: the last observed
    day is day 121. *)
Definition gapped_series : frame :=
  daily_series 119 (fun _ => 250%Q) ++ [(121, 250%Q)].

Definition decimal (n : nat) : string :=
  DecimalString.NilEmpty.string_of_uint (Nat.to_uint n).

(** One sale of 100.00 on day [i]. *)
Definition sale (i : nat) : transaction :=
  {| tx_id := String.append "sale-" (decimal i);
     tx_company := "acme";
     tx_amount := 10000;
     tx_date := Z.of_nat i;
     tx_category := "sales" |}.

(** A company with a sale on each of the days [1 .. n], a rent payment on
    day 1 as well, one active account, and a pending run; another company
    shares the tables. *)
Definition ledger_db (n : nat) : database :=
  {| transactions :=
       {| tx_id := "rent-1"; tx_company := "acme"; tx_amount := -4000;
          tx_date := 1; tx_category := "rent" |}
       :: {| tx_id := "other-1"; tx_company := "globex"; tx_amount := 77;
             tx_date := 500; tx_category := "sales" |}
       :: map sale (seq 1 n);
     forecast_runs :=
       [{| run_id := "run-0"; run_status := "completed";
           run_error_message := None; run_processing_time_ms := Some 12;
           run_accuracy_metrics := Some undefined_metrics |};
        {| run_id := "run-1"; run_status := "pending";
           run_error_message := None; run_processing_time_ms := None;
           run_accuracy_metrics := None |}];
     forecasts := [];
     bank_accounts :=
       [{| acct_company := "acme"; acct_current_balance := 500000;
           acct_is_active := true |}];
     alerts := [] |}.

(** A stand-in for the fitted isolation forest: it flags the rows whose
    absolute amount is at least 1000.00 and scores every sample -0.7. *)
Definition outlier_forest (contamination : Q) (random_state : Z)
    (X : list feature) : list Z :=
  map (fun x => if Qle_bool 1000 (fst x) then -1 else 1) X.

Definition outlier_scores (contamination : Q) (random_state : Z)
    (X samples : list feature) : list Q :=
  map (fun _ => (-7 # 10)%Q) samples.

(** 99 daily sales of 100.00 and one refund of 25000.00 paid out on day 50
    (a negative amount). *)
Definition refund_db : database :=
  {| transactions :=
       {| tx_id := "refund-1"; tx_company := "acme"; tx_amount := -2500000;
          tx_date := 50; tx_category := "refund" |}
       :: map sale (seq 1 99);
     forecast_runs := [];
     forecasts := [];
     bank_accounts := [];
     alerts := [] |}.

Definition refund_request : anomaly_request :=
  {| company_id := "acme"; transaction_ids := [] |}.

(** 120 distinct days with a long pause: daily up to day 91 (balance 250),
    then 29 days from day 200 on (balance 350). Only day 91 of the test
    window lies within 30 days of the training data. *)
Definition paused_series : frame :=
  daily_series 91 (fun _ => 250%Q)
  ++ map (fun i => (Z.of_nat (199 + i), 350%Q)) (seq 1 29).


(** 120 distinct days: daily up to day 90 (balance 250), then, after a
    pause, 30 days from day 200 on (balance 350). *)
Definition long_pause_series : frame :=
  daily_series 90 (fun _ => 250%Q)
  ++ map (fun i => (Z.of_nat (199 + i), 350%Q)) (seq 1 30).

(** A schema with a unique key on company, alert type and predicted date. *)
Definition same_day_conflict (new old : alert) : bool :=
  String.eqb (al_company new) (al_company old)
  && String.eqb (al_type new) (al_type old)
  && Z.eqb (al_predicted_date new) (al_predicted_date old).

(** A model that cannot be fitted with the baseline interval width 0.80 and
    predicts the constant 250 otherwise. *)
Definition baseline_failing_prophet (params : prophet_params) (df : frame)
    (periods : Z) : result (list forecast_point) :=
  if Qeq_bool (interval_width params) 0.80
  then Raise (LibraryError "fit failed")
  else flat_prophet 250 params df periods.


(** [outlier_forest] behind a check of its input: it refuses a matrix of
    fewer than 100 rows. *)
Definition guarded_forest (contamination : Q) (random_state : Z)
    (X : list feature) : list Z :=
  if Nat.ltb (length X) 100 then []
  else outlier_forest contamination random_state X.

(** * Properties *)

(** ** ORDER BY *)

Section OrderByFacts.
Context {A : Type} (key : A -> Z).

Lemma insert_by_perm (x : A) (l : list A) :
  Permutation (x :: l) (insert_by key x l).
Proof.
  induction l as [|y l IH]; simpl; [reflexivity|].
  destruct (key x <? key y); [reflexivity|].
  rewrite perm_swap. now constructor.
Qed.

Lemma order_by_perm (l : list A) : Permutation l (order_by key l).
Proof.
  induction l as [|x l IH]; simpl; [constructor|].
  rewrite <- insert_by_perm. now constructor.
Qed.

Lemma insert_by_hd (x : A) (l : list A) (k : Z) :
  k <= key x -> HdRel Z.le k (map key l) ->
  HdRel Z.le k (map key (insert_by key x l)).
Proof.
  intros Hx Hl. destruct l as [|y l]; simpl; [now constructor|].
  destruct (key x <? key y); simpl; constructor; auto.
  now inversion Hl.
Qed.

Lemma insert_by_sorted (x : A) (l : list A) :
  Sorted Z.le (map key l) -> Sorted Z.le (map key (insert_by key x l)).
Proof.
  induction l as [|y l IH]; simpl; intros Hs.
  - repeat constructor.
  - inversion Hs as [|? ? Hs' Hhd]; subst.
    destruct (key x <? key y) eqn:E; simpl.
    + constructor; [exact Hs|]. constructor. apply Z.ltb_lt in E. lia.
    + constructor; [now apply IH|].
      apply insert_by_hd; [|exact Hhd]. apply Z.ltb_ge in E. lia.
Qed.

Lemma order_by_sorted (l : list A) : Sorted Z.le (map key (order_by key l)).
Proof.
  induction l as [|x l IH]; simpl; [constructor|].
  now apply insert_by_sorted.
Qed.

Lemma order_by_In (l : list A) (x : A) : In x (order_by key l) <-> In x l.
Proof.
  split; intros H.
  - eapply Permutation_in; [symmetry; apply order_by_perm|exact H].
  - eapply Permutation_in; [apply order_by_perm|exact H].
Qed.

Lemma order_by_length (l : list A) : length (order_by key l) = length l.
Proof. symmetry. apply Permutation_length, order_by_perm. Qed.
End OrderByFacts.

(** ** The threshold of the alert deriver *)

Lemma Qltb_lt (x y : Q) : Qltb x y = true <-> (x < y)%Q.
Proof.
  unfold Qltb. rewrite Qlt_alt.
  destruct (x ?= y)%Q; split; congruence.
Qed.

(** The test of the loop is "strictly less than 20% of the current
    balance", in exact arithmetic. *)
Lemma below_threshold_20_percent (predicted current_balance : Z) :
  below_threshold predicted current_balance = true
  <-> (inject_Z predicted < (20 # 100) * inject_Z current_balance)%Q.
Proof.
  unfold below_threshold. rewrite Qltb_lt.
  assert (E : (inject_Z current_balance * 0.2 ==
               (20 # 100) * inject_Z current_balance)%Q).
  { unfold Qeq, Qmult, inject_Z. cbn [Qnum Qden]. lia. }
  now rewrite E.
Qed.

Lemma below_threshold_cents (predicted current_balance : Z) :
  below_threshold predicted current_balance = true
  <-> 5 * predicted < current_balance.
Proof.
  rewrite below_threshold_20_percent.
  unfold Qlt, Qmult, inject_Z. cbn [Qnum Qden]. lia.
Qed.

Lemma below_threshold_zero (predicted : Z) :
  below_threshold predicted 0 = true <-> predicted < 0.
Proof. rewrite below_threshold_cents. lia. Qed.

(** ** Alert deriver *)

Section AlertDeriver.
Variable alert_conflict : alert -> alert -> bool.

Lemma shortage_loop_first company cb before d p lo after s :
  Forall (fun r => below_threshold (predicted_of r) cb = false) before ->
  below_threshold p cb = true ->
  shortage_loop alert_conflict company cb (before ++ (d, p, lo) :: after) s
  = execute (insert_alert alert_conflict (cash_shortage_alert company d p)) s.
Proof.
  intros Hb Hp. induction Hb as [|[[d' p'] lo'] before Hx _ IH]; simpl.
  - now rewrite Hp.
  - unfold predicted_of in Hx; simpl in Hx. now rewrite Hx.
Qed.

Lemma shortage_loop_none company cb pts s :
  Forall (fun r => below_threshold (predicted_of r) cb = false) pts ->
  shortage_loop alert_conflict company cb pts s = (Ok tt, s).
Proof.
  intros Hb. induction Hb as [|[[d' p'] lo'] pts Hx _ IH]; simpl.
  - reflexivity.
  - unfold predicted_of in Hx; simpl in Hx. now rewrite Hx.
Qed.

Lemma alerts_run_first company run db before d p lo after :
  baseline_forecasts run db = before ++ (d, p, lo) :: after ->
  Forall (fun r => below_threshold (predicted_of r)
                     (scalar_or_zero (active_balance company db)) = false)
         before ->
  below_threshold p (scalar_or_zero (active_balance company db)) = true ->
  alerts_run alert_conflict company run db =
  let db' := insert_alert alert_conflict (cash_shortage_alert company d p) db in
  {| work := db'; committed := db'; snapshots := [db'] |}.
Proof.
  intros Hpts Hb Hp.
  unfold alerts_run, generate_forecast_alerts, bindM, query, open_session.
  cbn [work]. rewrite Hpts.
  rewrite (shortage_loop_first _ _ _ _ _ _ _ _ Hb Hp).
  reflexivity.
Qed.

Lemma alerts_run_none company run db :
  Forall (fun r => below_threshold (predicted_of r)
                     (scalar_or_zero (active_balance company db)) = false)
         (baseline_forecasts run db) ->
  alerts_run alert_conflict company run db =
  {| work := db; committed := db; snapshots := [db] |}.
Proof.
  intros Hb.
  unfold alerts_run, generate_forecast_alerts, bindM, query, open_session.
  cbn [work]. rewrite (shortage_loop_none _ _ _ _ Hb).
  reflexivity.
Qed.

Lemma baseline_forecasts_sorted run db :
  Sorted Z.le (map date_of (baseline_forecasts run db)).
Proof.
  unfold baseline_forecasts, date_of. rewrite map_map. cbn [fst].
  apply order_by_sorted.
Qed.

Lemma baseline_forecasts_In run db r :
  In r (baseline_forecasts run db) <->
  exists f, In f (forecasts db) /\ f_run f = run
            /\ f_scenario f = "baseline"%string
            /\ r = (f_date f, f_predicted_balance f, f_confidence_lower f).
Proof.
  unfold baseline_forecasts. rewrite in_map_iff. split.
  - intros (f & <- & Hin). apply order_by_In, filter_In in Hin.
    destruct Hin as (Hin & Hc). apply andb_true_iff in Hc.
    destruct Hc as (Hr & Hs). apply String.eqb_eq in Hr, Hs.
    exists f. auto.
  - intros (f & Hin & Hr & Hs & ->). exists f. split; [reflexivity|].
    apply order_by_In, filter_In. split; [exact Hin|].
    apply andb_true_iff. split; apply String.eqb_eq; assumption.
Qed.

Lemma insert_alert_appends a db :
  existsb (alert_conflict a) (alerts db) = false ->
  alerts (insert_alert alert_conflict a db) = alerts db ++ [a].
Proof. intros H. unfold insert_alert. now rewrite H. Qed.

Lemma insert_alert_at_most_one a db :
  alerts (insert_alert alert_conflict a db) = alerts db
  \/ alerts (insert_alert alert_conflict a db) = alerts db ++ [a].
Proof.
  unfold insert_alert. destruct (existsb _ _); [left|right]; reflexivity.
Qed.

End AlertDeriver.

(** C4. The baseline points of the run are scanned in ascending date order;
    at the first point whose predicted balance is strictly below 20% of the
    current balance exactly one alert is issued, of type cash_shortage and
    severity critical, with that point's date and amount, and the scan
    stops: whatever qualifies later adds nothing. When no point qualifies
    the tables are left as they were. *)
Theorem alert_first_qualifying_point_only :
  forall (alert_conflict : alert -> alert -> bool) (company run : string)
         (db : database),
    let current_balance := scalar_or_zero (active_balance company db) in
    let qualifies (r : date * Z * Z) :=
      (inject_Z (predicted_of r) < (20 # 100) * inject_Z current_balance)%Q in
    let after_run := alerts_run alert_conflict company run db in
    Sorted Z.le (map date_of (baseline_forecasts run db))
    /\ (forall r,
          In r (baseline_forecasts run db) <->
          exists f, In f (forecasts db) /\ f_run f = run
                    /\ f_scenario f = "baseline"%string
                    /\ r = (f_date f, f_predicted_balance f,
                            f_confidence_lower f))
    /\ (forall before d p lo after,
          baseline_forecasts run db = before ++ (d, p, lo) :: after ->
          (forall r, In r before -> ~ qualifies r) ->
          qualifies (d, p, lo) ->
          exists a,
            al_company a = company
            /\ al_type a = "cash_shortage"%string
            /\ al_severity a = "critical"%string
            /\ al_predicted_date a = d
            /\ al_predicted_amount a = p
            /\ committed after_run = insert_alert alert_conflict a db
            /\ snapshots after_run = [insert_alert alert_conflict a db]
            /\ (existsb (alert_conflict a) (alerts db) = false ->
                alerts (committed after_run) = alerts db ++ [a]))
    /\ ((forall r, In r (baseline_forecasts run db) -> ~ qualifies r) ->
        committed after_run = db).
Proof.
  intros conflict company run db cb qualifies after_run.
  assert (Hq : forall r, ~ qualifies r ->
                         below_threshold (predicted_of r) cb = false).
  { intros r Hr. destruct (below_threshold (predicted_of r) cb) eqn:E; auto.
    apply below_threshold_20_percent in E. contradiction. }
  split; [apply baseline_forecasts_sorted|].
  split; [apply baseline_forecasts_In|]. split.
  - intros before d p lo after Hpts Hbefore Hp.
    assert (Hrun := alerts_run_first conflict company run db
                      before d p lo after Hpts).
    fold cb in Hrun. fold after_run in Hrun.
    rewrite Hrun.
    + exists (cash_shortage_alert company d p). cbn.
      repeat split. apply insert_alert_appends.
    + apply Forall_forall. intros r Hr. apply Hq, Hbefore, Hr.
    + apply below_threshold_20_percent. exact Hp.
  - intros Hnone. subst after_run. rewrite alerts_run_none; [reflexivity|].
    apply Forall_forall. intros r Hr. apply Hq, Hnone, Hr.
Qed.

Lemma alert_first_qualifying_point_only_witness :
  alerts (committed (alerts_run no_conflict "acme" "run-1" shortage_db))
  = [cash_shortage_alert "acme" 3 150].
Proof.
  destruct (alert_first_qualifying_point_only no_conflict "acme" "run-1"
              shortage_db) as (_ & _ & Hfirst & _).
  destruct (Hfirst [(1, 1000, 950); (2, 800, 750)] 3 150 100 [(4, 100, 50)])
    as (a & Hc & Ht & Hs & Hd & Hp & Hdb & _ & Happ).
  - reflexivity.
  - intros r [<-|[<-|[]]]; unfold Qlt; simpl; lia.
  - unfold Qlt; simpl; lia.
  - rewrite Happ; [|reflexivity]. simpl.
    destruct a; simpl in *; subst.
    assert (Ha : alerts (insert_alert no_conflict
                   {| al_company := "acme"; al_type := "cash_shortage";
                      al_severity := "critical"; al_title := al_title0;
                      al_message := al_message0; al_predicted_date := 3;
                      al_predicted_amount := 150; al_status := al_status0 |}
                   shortage_db)
                 = alerts (insert_alert no_conflict
                             (cash_shortage_alert "acme" 3 150) shortage_db)).
    { rewrite <- Hdb. reflexivity. }
    unfold insert_alert in Ha. simpl in Ha. exact Ha.
Defined.

(** Against C1 as stated. With no active account the current balance is 0
    and the threshold is [0 * 0.2 = 0]: a forecast point below zero is below the threshold, and
    the deriver issues an alert for it. *)
Lemma zero_balance_negative_forecast_alerts :
  active_balance "acme" overdraft_db = Some 0
  /\ scalar_or_zero (active_balance "acme" overdraft_db) = 0
  /\ baseline_forecasts "run-1" overdraft_db = [(1, 200, 150); (2, -100, -150)]
  /\ alerts overdraft_db = []
  /\ alerts (committed (alerts_run no_conflict "acme" "run-1" overdraft_db))
     = [cash_shortage_alert "acme" 2 (-100)].
Proof. repeat split. Qed.

(** C1, as the code has it. When the current balance is 0 the threshold is
    0: a run whose baseline points are all non-negative leaves the tables
    untouched, and a run with a negative point issues the cash-shortage
    alert at the first such point. *)
Theorem zero_balance_alert_only_below_zero :
  forall (alert_conflict : alert -> alert -> bool) (company run : string)
         (db : database),
    scalar_or_zero (active_balance company db) = 0 ->
    let after_run := alerts_run alert_conflict company run db in
    ((forall r, In r (baseline_forecasts run db) -> 0 <= predicted_of r) ->
     committed after_run = db /\ snapshots after_run = [db])
    /\ (forall before d p lo after,
          baseline_forecasts run db = before ++ (d, p, lo) :: after ->
          (forall r, In r before -> 0 <= predicted_of r) ->
          p < 0 ->
          committed after_run
          = insert_alert alert_conflict (cash_shortage_alert company d p) db).
Proof.
  intros conflict company run db Hzero after_run.
  assert (Hq : forall r, 0 <= predicted_of r ->
                         below_threshold (predicted_of r) 0 = false).
  { intros r Hr. destruct (below_threshold (predicted_of r) 0) eqn:E; auto.
    apply below_threshold_zero in E. lia. }
  split.
  - intros Hnonneg. subst after_run. rewrite alerts_run_none; [now split|].
    rewrite Hzero. apply Forall_forall. intros r Hr. apply Hq, Hnonneg, Hr.
  - intros before d p lo after Hpts Hbefore Hp. subst after_run.
    rewrite (alerts_run_first conflict company run db before d p lo after Hpts).
    + reflexivity.
    + rewrite Hzero. apply Forall_forall. intros r Hr. apply Hq, Hbefore, Hr.
    + rewrite Hzero. apply below_threshold_zero. exact Hp.
Qed.

Lemma zero_balance_alert_only_below_zero_witness :
  committed (alerts_run no_conflict "acme" "run-1" solvent_db) = solvent_db
  /\ committed (alerts_run no_conflict "acme" "run-1" overdraft_db)
     = insert_alert no_conflict (cash_shortage_alert "acme" 2 (-100))
                    overdraft_db.
Proof.
  split.
  - destruct (zero_balance_alert_only_below_zero no_conflict "acme" "run-1"
                solvent_db eq_refl) as (Hnone & _).
    apply Hnone. intros r [<-|[<-|[]]]; unfold predicted_of; simpl; lia.
  - destruct (zero_balance_alert_only_below_zero no_conflict "acme" "run-1"
                overdraft_db eq_refl) as (_ & Hfirst).
    apply (Hfirst [(1, 200, 150)] 2 (-100) (-150) []).
    + reflexivity.
    + intros r [<-|[]]; unfold predicted_of; simpl; lia.
    + lia.
Defined.

(** ** Scenario forecaster and forecast storage *)

Lemma append_forecasts_nil db : append_forecasts [] db = db.
Proof. destruct db. unfold append_forecasts. cbn. now rewrite app_nil_r. Qed.

Lemma append_forecasts_cons r rows db :
  append_forecasts rows (insert_forecast r db) = append_forecasts (r :: rows) db.
Proof.
  unfold append_forecasts, insert_forecast. cbn.
  now rewrite <- app_assoc.
Qed.

Lemma insert_forecasts_run mv run company fs scenario s :
  insert_forecasts mv run company fs scenario s
  = (Ok tt,
     {| work := append_forecasts (forecast_rows mv run company scenario fs)
                                 (work s);
        committed := committed s;
        snapshots := snapshots s |}).
Proof.
  revert s. induction fs as [|row fs IH]; intros s.
  - cbn. rewrite append_forecasts_nil. now destruct s.
  - cbn [insert_forecasts]. unfold bindM, execute. rewrite IH. cbn.
    now rewrite append_forecasts_cons.
Qed.

Lemma store_forecasts_run mv run company fs scenario s :
  store_forecasts mv run company fs scenario s
  = (Ok tt,
     let db' := append_forecasts (forecast_rows mv run company scenario fs)
                                 (work s) in
     {| work := db'; committed := db'; snapshots := snapshots s ++ [db'] |}).
Proof.
  unfold store_forecasts, bindM. rewrite insert_forecasts_run. reflexivity.
Qed.

(** C8. The two scenario tables are constants of the program: the model of
    a scenario is built from the table entries alone, and the entries are
    ordered pessimistic >= baseline >= optimistic, for the interval width
    and for the changepoint (trend flexibility) scale alike. *)
Theorem scenario_parameters_monotone :
  (forall prophet df horizon,
      Forall (fun scenario => exists width scale,
        dict_get interval_width_table scenario = Ok width
        /\ dict_get changepoint_scale_table scenario = Ok scale
        /\ generate_prophet_forecast prophet df horizon scenario
           = (forecast <~ prophet {| interval_width := width;
                                     changepoint_prior_scale := scale;
                                     yearly_seasonality := Enabled;
                                     weekly_seasonality := Enabled;
                                     daily_seasonality := Disabled |}
                                  df horizon ;;
              Ok (filter (fun p => match ds_max df with
                                   | Some last => Z.ltb last (ds p)
                                   | None => false
                                   end) forecast))) scenarios)
  /\ (exists wp wb wo,
        dict_get interval_width_table "pessimistic" = Ok wp
        /\ dict_get interval_width_table "baseline" = Ok wb
        /\ dict_get interval_width_table "optimistic" = Ok wo
        /\ (wo <= wb)%Q /\ (wb <= wp)%Q)
  /\ (exists cp cb co,
        dict_get changepoint_scale_table "pessimistic" = Ok cp
        /\ dict_get changepoint_scale_table "baseline" = Ok cb
        /\ dict_get changepoint_scale_table "optimistic" = Ok co
        /\ (co <= cb)%Q /\ (cb <= cp)%Q).
Proof.
  split; [|split].
  - intros prophet df horizon. unfold scenarios.
    repeat constructor;
      eexists; eexists; (split; [reflexivity|]); (split; reflexivity).
  - exists 0.95%Q, 0.80%Q, 0.65%Q. repeat split; try reflexivity;
      unfold Qle; simpl; lia.
  - exists 0.1%Q, 0.05%Q, 0.02%Q. repeat split; try reflexivity;
      unfold Qle; simpl; lia.
Qed.

(** C10. Every row that [store_forecasts] writes has confidence_level 0.80,
    whatever the scenario, although the pessimistic and optimistic models
    are fitted with interval widths 0.95 and 0.65, which differ from 0.80. *)
Theorem stored_confidence_level_is_constant :
  (forall model_version run company forecast_frame scenario s,
      exists rows,
        forecasts (work (snd (store_forecasts model_version run company
                                              forecast_frame scenario s)))
        = forecasts (work s) ++ rows
        /\ length rows = length forecast_frame
        /\ Forall (fun r => f_scenario r = scenario
                            /\ f_confidence_level r = 0.80%Q) rows)
  /\ dict_get interval_width_table "pessimistic" = Ok 0.95%Q
  /\ dict_get interval_width_table "optimistic" = Ok 0.65%Q
  /\ ~ (0.95 == 0.80)%Q
  /\ ~ (0.65 == 0.80)%Q.
Proof.
  split.
  - intros mv run company fs scenario s.
    rewrite store_forecasts_run. cbn.
    exists (forecast_rows mv run company scenario fs).
    split; [reflexivity|]. split; [apply length_map|].
    unfold forecast_rows. apply Forall_forall.
    intros r Hr. apply in_map_iff in Hr. destruct Hr as (p & <- & _).
    split; reflexivity.
  - repeat split; unfold Qeq; simpl; lia.
Qed.

(** ** Accuracy evaluator *)

Lemma iloc_split {A} (n : nat) (l : list A) :
  l = iloc_to_last n l ++ iloc_last n l.
Proof. unfold iloc_to_last, iloc_last. now rewrite firstn_skipn. Qed.

Lemma iloc_last_length {A} (n : nat) (l : list A) :
  (n <= length l)%nat -> length (iloc_last n l) = n.
Proof. intros H. unfold iloc_last. rewrite length_skipn. lia. Qed.

Lemma calculate_accuracy_short prophet sqrt_float historical forecast :
  (length historical < 120)%nat ->
  calculate_accuracy prophet sqrt_float historical forecast
  = Ok undefined_metrics.
Proof.
  intros H. unfold calculate_accuracy.
  apply Nat.ltb_lt in H. now rewrite H.
Qed.

Lemma calculate_accuracy_long prophet sqrt_float historical forecast :
  (120 <= length historical)%nat ->
  calculate_accuracy prophet sqrt_float historical forecast
  = (predictions <~ prophet (prophet_defaults Enabled Enabled)
                            (iloc_to_last 30 historical) 30 ;;
     let test := iloc_last 30 historical in
     let predictions :=
       filter (fun p => isin (ds p) (map fst test)) predictions in
     if Nat.eqb (length predictions) 0 then Ok undefined_metrics
     else
       let y_true := map (fun r => Fin (snd r)) test in
       let y_pred := firstn (length y_true)
                            (map (fun p => Fin (yhat p)) predictions) in
       diff <~ broadcast np_sub y_true y_pred ;;
       ratio <~ broadcast np_div diff y_true ;;
       Ok [("mape"%string,
            Some (round2 (np_mul (np_mean (map np_abs ratio)) (Fin 100))));
           ("rmse"%string,
            Some (round2 (np_sqrt sqrt_float (np_mean (map square diff)))));
           ("mae"%string, Some (round2 (np_mean (map np_abs diff))))]).
Proof.
  intros H. unfold calculate_accuracy.
  apply Nat.ltb_ge in H. now rewrite H.
Qed.

Lemma broadcast_equal_length f xs ys :
  length xs = length ys -> broadcast f xs ys = Ok (zip_with f xs ys).
Proof. intros E. unfold broadcast. apply Nat.eqb_eq in E. now rewrite E. Qed.

Lemma zip_with_length {A B C} (f : A -> B -> C) xs ys :
  length xs = length ys -> length (zip_with f xs ys) = length xs.
Proof.
  revert ys. induction xs as [|x xs IH]; intros [|y ys] E; simpl in *;
    try discriminate; auto.
Qed.

Lemma zip_with_sub_pairs (ts ps : list Q) :
  zip_with np_sub (map Fin ts) (map Fin ps)
  = map (fun tp : Q * Q => np_sub (Fin (fst tp)) (Fin (snd tp)))
        (combine ts ps).
Proof.
  revert ps. induction ts as [|t ts IH]; intros [|p ps]; cbn; auto.
  now rewrite <- IH.
Qed.

Lemma zip_with_ratio_pairs (ts ps : list Q) :
  zip_with np_div (zip_with np_sub (map Fin ts) (map Fin ps)) (map Fin ts)
  = map (fun tp : Q * Q =>
           np_div (np_sub (Fin (fst tp)) (Fin (snd tp))) (Fin (fst tp)))
        (combine ts ps).
Proof.
  revert ps. induction ts as [|t ts IH]; intros [|p ps]; cbn; auto.
  now rewrite <- IH.
Qed.

(** The evaluator's result when the filter leaves one prediction per test
    row: the metrics over the pairs taken by position. *)
Lemma calculate_accuracy_pairs prophet sqrt_float historical forecast
    predictions :
  (120 <= length historical)%nat ->
  prophet (prophet_defaults Enabled Enabled) (iloc_to_last 30 historical) 30
  = Ok predictions ->
  length (date_matched (iloc_last 30 historical) predictions) = 30%nat ->
  calculate_accuracy prophet sqrt_float historical forecast
  = Ok (holdout_metrics sqrt_float
          (combine (map snd (iloc_last 30 historical))
                   (map yhat (date_matched (iloc_last 30 historical)
                                           predictions)))).
Proof.
  intros Hlen Hfit Hmatched.
  assert (Htest : length (iloc_last 30 historical) = 30%nat)
    by (apply iloc_last_length; lia).
  rewrite calculate_accuracy_long by exact Hlen.
  rewrite Hfit. cbn [bindR]. cbv zeta.
  fold (date_matched (iloc_last 30 historical) predictions).
  rewrite Hmatched. cbn [Nat.eqb].
  rewrite length_map, Htest.
  rewrite firstn_all2 by (rewrite length_map; lia).
  rewrite <- (map_map snd Fin (iloc_last 30 historical)).
  rewrite <- (map_map yhat Fin (date_matched _ predictions)).
  rewrite broadcast_equal_length by (rewrite !length_map; lia).
  cbn [bindR].
  rewrite broadcast_equal_length
    by (rewrite zip_with_length; rewrite !length_map; lia).
  cbn [bindR].
  rewrite zip_with_ratio_pairs, zip_with_sub_pairs.
  unfold holdout_metrics. rewrite !map_map. reflexivity.
Qed.

Lemma calculate_accuracy_unmatched prophet sqrt_float historical forecast
    predictions :
  (120 <= length historical)%nat ->
  prophet (prophet_defaults Enabled Enabled) (iloc_to_last 30 historical) 30
  = Ok predictions ->
  date_matched (iloc_last 30 historical) predictions = [] ->
  calculate_accuracy prophet sqrt_float historical forecast
  = Ok undefined_metrics.
Proof.
  intros Hlen Hfit Hmatched.
  rewrite calculate_accuracy_long by exact Hlen.
  rewrite Hfit. cbn [bindR]. cbv zeta.
  fold (date_matched (iloc_last 30 historical) predictions).
  now rewrite Hmatched.
Qed.

(** C7. Below 120 observations the evaluator returns the three metrics
    undefined, whatever the model would do (it is not consulted, so it
    cannot fail the call). From 120 observations on, the series is split
    into the last 30 observations and the rest, the default model is fitted
    on the rest with 30 periods, and the outcome depends on the model only
    through that fit: its exception is the evaluator's exception. The
    holdout comparison is then made against the test window: the
    predictions are restricted to the dates of the window; when none is
    left the metrics are undefined, and when there is one for each of the
    30 test rows the result is the three error metrics over the 30 pairs
    (value of the test row, prediction), all three defined. *)
Theorem accuracy_needs_120_observations :
  forall prophet sqrt_float historical forecast,
    ((length historical < 120)%nat ->
     calculate_accuracy prophet sqrt_float historical forecast
     = Ok undefined_metrics
     /\ dict_get undefined_metrics "mape" = Ok None
     /\ dict_get undefined_metrics "rmse" = Ok None
     /\ dict_get undefined_metrics "mae" = Ok None)
    /\ ((120 <= length historical)%nat ->
        let train := iloc_to_last 30 historical in
        let test := iloc_last 30 historical in
        historical = train ++ test
        /\ length test = 30%nat
        /\ (forall e,
              prophet (prophet_defaults Enabled Enabled) train 30 = Raise e ->
              calculate_accuracy prophet sqrt_float historical forecast
              = Raise e)
        /\ (forall prophet',
              prophet' (prophet_defaults Enabled Enabled) train 30
              = prophet (prophet_defaults Enabled Enabled) train 30 ->
              calculate_accuracy prophet' sqrt_float historical forecast
              = calculate_accuracy prophet sqrt_float historical forecast)
        /\ (forall predictions,
              prophet (prophet_defaults Enabled Enabled) train 30
              = Ok predictions ->
              let matched := date_matched test predictions in
              (matched = [] ->
               calculate_accuracy prophet sqrt_float historical forecast
               = Ok undefined_metrics)
              /\ (Forall2 (fun r p => fst r = ds p) test matched ->
                  exists mape rmse mae,
                    holdout_metrics sqrt_float
                      (combine (map snd test) (map yhat matched))
                    = [("mape"%string, Some mape); ("rmse"%string, Some rmse);
                       ("mae"%string, Some mae)]
                    /\ calculate_accuracy prophet sqrt_float historical
                                          forecast
                       = Ok (holdout_metrics sqrt_float
                               (combine (map snd test)
                                        (map yhat matched)))))).
Proof.
  intros prophet sqrt_float historical forecast. split.
  - intros H. split; [now apply calculate_accuracy_short|].
    repeat split.
  - intros H train test. split; [apply iloc_split|].
    assert (Htest : length test = 30%nat) by (apply iloc_last_length; lia).
    split; [exact Htest|]. split; [|split].
    + intros e He. rewrite calculate_accuracy_long by exact H.
      fold train. now rewrite He.
    + intros prophet' Heq. rewrite !calculate_accuracy_long by exact H.
      fold train. now rewrite Heq.
    + intros predictions Hfit matched. split.
      * intros Hnone.
        now apply (calculate_accuracy_unmatched _ _ _ _ predictions).
      * intros Hall. do 3 eexists. split; [reflexivity|].
        apply calculate_accuracy_pairs; [exact H|exact Hfit|].
        fold test. fold matched.
        rewrite <- (Forall2_length Hall). exact Htest.
Qed.

Lemma accuracy_needs_120_observations_witness :
  calculate_accuracy failing_prophet sample_sqrt short_series []
  = Ok undefined_metrics
  /\ calculate_accuracy failing_prophet sample_sqrt steady_series []
     = Raise (LibraryError "fit failed")
  /\ length (iloc_last 30 steady_series) = 30%nat
  /\ calculate_accuracy (flat_prophet 240) sample_sqrt steady_series []
     = Ok [("mape"%string, Some (Fin 4.00));
           ("rmse"%string, Some (Fin 10.00));
           ("mae"%string, Some (Fin 10.00))].
Proof.
  destruct (accuracy_needs_120_observations failing_prophet sample_sqrt
              short_series []) as (Hshort & _).
  destruct (accuracy_needs_120_observations failing_prophet sample_sqrt
              steady_series []) as (_ & Hlong).
  destruct (accuracy_needs_120_observations (flat_prophet 240) sample_sqrt
              steady_series []) as (_ & Hholdout).
  assert (H100 : (length short_series < 120)%nat)
    by (apply Nat.ltb_lt; reflexivity).
  assert (H120 : (120 <= length steady_series)%nat)
    by (apply Nat.leb_le; reflexivity).
  destruct (Hshort H100) as (Hundefined & _).
  destruct (Hlong H120) as (_ & Htest & Hraise & _).
  destruct (Hholdout H120) as (_ & _ & _ & _ & Hpairs).
  assert (Hfit : exists predictions,
             flat_prophet 240 (prophet_defaults Enabled Enabled)
                          (iloc_to_last 30 steady_series) 30
             = Ok predictions
             /\ Forall2 (fun r p => fst r = ds p)
                        (iloc_last 30 steady_series)
                        (date_matched (iloc_last 30 steady_series)
                                      predictions)).
  { eexists. split; [reflexivity|]. vm_compute.
    repeat (constructor; [reflexivity|]). constructor. }
  destruct Hfit as (predictions & Hfit & Hall).
  destruct (Hpairs predictions Hfit) as (_ & Hnumeric).
  destruct (Hnumeric Hall) as (mape & rmse & mae & _ & Hcalc).
  split; [exact Hundefined|]. split; [apply Hraise; reflexivity|].
  split; [exact Htest|].
  rewrite Hcalc. injection Hfit as <-. vm_compute. reflexivity.
Defined.

(** *** Division by a zero true value *)

Lemma broadcast_length_left f xs ys zs :
  length xs <> 1%nat ->
  broadcast f xs ys = Ok zs ->
  length zs = length xs.
Proof.
  intros Hxs. unfold broadcast.
  destruct (Nat.eqb (length xs) (length ys)) eqn:E.
  - intros [= <-]. apply Nat.eqb_eq in E.
    revert ys E. clear Hxs.
    induction xs as [|x xs IH]; intros [|y ys] E; simpl in *;
      try discriminate; auto.
  - destruct xs as [|x [|x' xs]]; destruct ys as [|y [|y' ys]];
      try discriminate; try (intros [= <-]; simpl; now rewrite ?length_map);
      simpl in Hxs; congruence.
Qed.

Lemma np_div_zero_not_finite x z :
  Qeqb0 z = true ->
  np_div x (Fin z) = PInf \/ np_div x (Fin z) = NInf \/ np_div x (Fin z) = NaN.
Proof.
  intros Hz. destruct x as [a| | |]; simpl; rewrite ?Hz.
  - destruct (Qeqb0 a); [|destruct (Qneg a)]; simpl; auto.
  - destruct (Qneg z); simpl; auto.
  - destruct (Qneg z); simpl; auto.
  - auto.
Qed.

Lemma zip_with_div_zero (diff : ndarray) (ys : list Q) z :
  length diff = length ys -> In z ys -> Qeqb0 z = true ->
  Exists inf_or_nan (map np_abs (zip_with np_div diff (map Fin ys))).
Proof.
  revert diff. induction ys as [|y ys IH]; intros [|x diff] Hlen Hin Hz;
    simpl in *; try discriminate; try contradiction.
  destruct Hin as [->|Hin].
  - apply Exists_cons_hd.
    destruct (np_div_zero_not_finite x z Hz) as [E|[E|E]]; rewrite E;
      unfold inf_or_nan; simpl; auto.
  - apply Exists_cons_tl. apply IH; auto.
Qed.

Lemma np_abs_not_ninf x : np_abs x <> NInf.
Proof. destruct x; discriminate. Qed.

Lemma np_sum_inf_or_nan (xs : ndarray) (acc : npfloat) :
  Forall (fun x => x <> NInf) xs -> acc <> NInf ->
  inf_or_nan acc \/ Exists inf_or_nan xs ->
  inf_or_nan (fold_left np_add xs acc).
Proof.
  intros Hxs. revert acc.
  induction Hxs as [|x xs Hx _ IH]; intros acc Hacc H; simpl.
  - destruct H as [H|H]; [exact H|inversion H].
  - apply IH.
    + destruct acc, x; simpl; congruence.
    + destruct H as [H|H].
      * left. destruct H as [-> | ->]; destruct x; unfold inf_or_nan;
          simpl; auto; congruence.
      * inversion H as [? ? Hx'|? ? Ht]; subst.
        -- left. destruct Hx' as [-> | ->]; destruct acc;
             unfold inf_or_nan; simpl; auto; congruence.
        -- right. exact Ht.
Qed.

Lemma np_mean_abs_inf_or_nan (xs : ndarray) :
  Exists inf_or_nan (map np_abs xs) -> inf_or_nan (np_mean (map np_abs xs)).
Proof.
  intros H. unfold np_mean, np_sum.
  assert (Hs : inf_or_nan (fold_left np_add (map np_abs xs) (Fin 0))).
  { apply np_sum_inf_or_nan; [|discriminate|auto].
    apply Forall_forall. intros x Hx. apply in_map_iff in Hx.
    destruct Hx as (y & <- & _). apply np_abs_not_ninf. }
  destruct Hs as [-> | ->]; unfold inf_or_nan; simpl; auto.
  unfold Qneg. simpl.
  destruct (Z.of_nat (length (map np_abs xs)) <? 0) eqn:E; auto.
  apply Z.ltb_lt in E. lia.
Qed.

Lemma round2_percent_inf_or_nan x :
  inf_or_nan x -> inf_or_nan (round2 (np_mul x (Fin 100))).
Proof. intros [-> | ->]; unfold inf_or_nan; simpl; auto. Qed.

Lemma Qeqb0_eq (q : Q) : (q == 0)%Q -> Qeqb0 q = true.
Proof.
  unfold Qeq, Qeqb0. simpl. intros H. apply Z.eqb_eq. lia.
Qed.

(** When every date of the test window has a prediction, the three metrics
    are computed by position over the 30 pairs. *)
Lemma calculate_accuracy_aligned prophet sqrt_float historical forecast
    predictions :
  (120 <= length historical)%nat ->
  prophet (prophet_defaults Enabled Enabled) (iloc_to_last 30 historical) 30
  = Ok predictions ->
  (30 <= length (date_matched (iloc_last 30 historical) predictions))%nat ->
  let y_true := map Fin (map snd (iloc_last 30 historical)) in
  let y_pred :=
    firstn 30 (map (fun p => Fin (yhat p))
                   (date_matched (iloc_last 30 historical) predictions)) in
  let diff := zip_with np_sub y_true y_pred in
  length diff = length (map snd (iloc_last 30 historical))
  /\ calculate_accuracy prophet sqrt_float historical forecast
     = Ok [("mape"%string,
            Some (round2 (np_mul (np_mean (map np_abs
                                     (zip_with np_div diff y_true)))
                                 (Fin 100))));
           ("rmse"%string,
            Some (round2 (np_sqrt sqrt_float (np_mean (map square diff)))));
           ("mae"%string, Some (round2 (np_mean (map np_abs diff))))].
Proof.
  intros Hlen Hfit Hmatched y_true y_pred diff.
  assert (Htest : length (iloc_last 30 historical) = 30%nat)
    by (apply iloc_last_length; lia).
  assert (Htrue : length y_true = 30%nat)
    by (unfold y_true; now rewrite !length_map).
  assert (Hpred : length y_pred = 30%nat).
  { unfold y_pred. rewrite length_firstn, length_map. lia. }
  assert (Hdiff : length diff = 30%nat).
  { unfold diff. rewrite zip_with_length; congruence. }
  split; [now rewrite length_map, Htest|].
  rewrite calculate_accuracy_long by exact Hlen.
  rewrite Hfit. cbn [bindR]. cbv zeta.
  fold (date_matched (iloc_last 30 historical) predictions).
  replace (map (fun r : date * Q => Fin (snd r)) (iloc_last 30 historical))
    with y_true by (unfold y_true; now rewrite map_map).
  rewrite Htrue. fold y_pred.
  destruct (Nat.eqb_spec
              (length (date_matched (iloc_last 30 historical) predictions)) 0)
    as [E|_]; [lia|].
  rewrite (broadcast_equal_length np_sub y_true y_pred) by congruence.
  cbn [bindR]. fold diff.
  rewrite (broadcast_equal_length np_div diff y_true) by congruence.
  reflexivity.
Qed.

(** Against C2 as stated. On the drained series the balance of the last
    test day is exactly 0 and
    every test day has a prediction: the evaluator divides by that 0 and
    reports MAPE as [inf], not as the undefined marker. *)
Lemma mape_zero_true_value_reported_inf :
  nth_error (iloc_last 30 drained_series) 29 = Some (120, 0%Q)
  /\ exists m,
       calculate_accuracy (flat_prophet 250) sample_sqrt drained_series []
       = Ok m
       /\ dict_get m "mape" = Ok (Some PInf)
       /\ dict_get m "mape" <> Ok None.
Proof.
  split; [reflexivity|].
  eexists. split; [vm_compute; reflexivity|].
  split; [reflexivity|discriminate].
Qed.

(** Where the undefined marker comes from: a series shorter than 120, or
    no prediction left on the dates of the test window. *)
Lemma mape_undefined_cases prophet sqrt_float historical forecast m :
  calculate_accuracy prophet sqrt_float historical forecast = Ok m ->
  (dict_get m "mape" = Ok None
   <-> ((length historical < 120)%nat
        \/ exists predictions,
             prophet (prophet_defaults Enabled Enabled)
                     (iloc_to_last 30 historical) 30 = Ok predictions
             /\ date_matched (iloc_last 30 historical) predictions = [])).
Proof.
  destruct (Nat.lt_ge_cases (length historical) 120) as [Hshort|Hlong].
  - rewrite calculate_accuracy_short by exact Hshort.
    intros [= <-]. split; [auto|reflexivity].
  - rewrite calculate_accuracy_long by exact Hlong.
    destruct (prophet (prophet_defaults Enabled Enabled)
                      (iloc_to_last 30 historical) 30)
      as [predictions|e]; cbn [bindR]; [|discriminate].
    cbv zeta. fold (date_matched (iloc_last 30 historical) predictions).
    destruct (date_matched (iloc_last 30 historical) predictions)
      as [|p matched] eqn:Hmatched.
    + cbn [length Nat.eqb]. intros [= <-]. split; [|reflexivity].
      intros _. right. exists predictions. auto.
    + cbn [length Nat.eqb].
      destruct (broadcast np_sub _ _) as [diff|e]; cbn [bindR];
        [|discriminate].
      destruct (broadcast np_div _ _) as [ratio|e]; cbn [bindR];
        [|discriminate].
      intros [= <-]. split; [discriminate|].
      intros [Hshort|(predictions' & [= <-] & Hnone)]; [lia|congruence].
Qed.

(** C2, as the code has it. When the series has at least 120 observations,
    every date of the test window has a prediction and some true value of
    the window is exactly zero, the evaluator returns numeric metrics in
    which MAPE is [inf] or [nan], the outcome of NumPy's division by that
    zero; the undefined marker is not used for this case. Whenever the
    evaluator returns, MAPE is the undefined marker in two cases only: the
    series is shorter than 120, or no prediction is dated in the test
    window. *)
Theorem mape_zero_true_value_not_finite :
  forall prophet sqrt_float historical forecast,
    (forall predictions zero_day zero_value,
        (120 <= length historical)%nat ->
        prophet (prophet_defaults Enabled Enabled)
                (iloc_to_last 30 historical) 30
        = Ok predictions ->
        (30 <= length (date_matched (iloc_last 30 historical)
                                    predictions))%nat ->
        In (zero_day, zero_value) (iloc_last 30 historical) ->
        (zero_value == 0)%Q ->
        exists m v,
          calculate_accuracy prophet sqrt_float historical forecast = Ok m
          /\ dict_get m "mape" = Ok (Some v)
          /\ inf_or_nan v)
    /\ (forall m,
          calculate_accuracy prophet sqrt_float historical forecast = Ok m ->
          (dict_get m "mape" = Ok None
           <-> ((length historical < 120)%nat
                \/ exists predictions,
                     prophet (prophet_defaults Enabled Enabled)
                             (iloc_to_last 30 historical) 30
                     = Ok predictions
                     /\ date_matched (iloc_last 30 historical) predictions
                        = []))).
Proof.
  intros prophet sqrt_float historical forecast. split.
  - intros predictions d z Hlen Hfit Hmatched Hin Hz.
    destruct (calculate_accuracy_aligned prophet sqrt_float historical
                forecast predictions Hlen Hfit Hmatched) as (Hdiff & Hcalc).
    eexists. eexists. split; [exact Hcalc|]. split; [reflexivity|].
    apply round2_percent_inf_or_nan, np_mean_abs_inf_or_nan.
    apply (zip_with_div_zero _ _ z).
    + exact Hdiff.
    + apply in_map_iff. exists (d, z). auto.
    + now apply Qeqb0_eq.
  - apply mape_undefined_cases.
Qed.

Lemma mape_zero_true_value_not_finite_witness :
  (exists m v,
      calculate_accuracy (flat_prophet 0) sample_sqrt drained_series [] = Ok m
      /\ dict_get m "mape" = Ok (Some v)
      /\ inf_or_nan v)
  /\ (dict_get undefined_metrics "mape" = Ok None
      <-> ((length short_series < 120)%nat
           \/ exists predictions,
                flat_prophet 0 (prophet_defaults Enabled Enabled)
                             (iloc_to_last 30 short_series) 30
                = Ok predictions
                /\ date_matched (iloc_last 30 short_series) predictions
                   = [])).
Proof.
  destruct (mape_zero_true_value_not_finite (flat_prophet 0) sample_sqrt
              drained_series []) as (Hzero & _).
  destruct (mape_zero_true_value_not_finite (flat_prophet 0) sample_sqrt
              short_series []) as (_ & Hmarker).
  split.
  - destruct (flat_prophet 0 (prophet_defaults Enabled Enabled)
                (iloc_to_last 30 drained_series) 30)
      as [predictions|e] eqn:Hfit; [|discriminate].
    apply (Hzero predictions 120 0%Q).
    + apply Nat.leb_le. reflexivity.
    + reflexivity.
    + injection Hfit as <-. apply Nat.leb_le. vm_compute. reflexivity.
    + injection Hfit as <-. vm_compute. do 29 right. left. reflexivity.
    + reflexivity.
  - apply Hmarker. reflexivity.
Defined.

(** *** Test dates without a prediction *)

Lemma broadcast_mismatch f (xs ys : ndarray) :
  length xs <> length ys ->
  (2 <= length xs)%nat -> (2 <= length ys)%nat ->
  broadcast f xs ys
  = Raise (ValueError "operands could not be broadcast together").
Proof.
  intros Hne Hx Hy. unfold broadcast.
  destruct (Nat.eqb_spec (length xs) (length ys)) as [E|_]; [contradiction|].
  destruct xs as [|x [|x' xs]]; simpl in Hx; try lia.
  destruct ys as [|y [|y' ys]]; simpl in Hy; try lia.
  reflexivity.
Qed.

(** C3 fails on the code in this way. The predictions are filtered to the
    dates of the test window, but the true values are not filtered to the
    dates that have a prediction: when between 2 and 29 of the 30 test
    dates have one, the two arrays differ in length and the subtraction
    raises instead of comparing the date-matched pairs. *)
Theorem accuracy_missing_test_date_raises :
  forall prophet sqrt_float historical forecast predictions,
    (120 <= length historical)%nat ->
    prophet (prophet_defaults Enabled Enabled) (iloc_to_last 30 historical) 30
    = Ok predictions ->
    (2 <= length (date_matched (iloc_last 30 historical) predictions))%nat ->
    (length (date_matched (iloc_last 30 historical) predictions) < 30)%nat ->
    calculate_accuracy prophet sqrt_float historical forecast
    = Raise (ValueError "operands could not be broadcast together").
Proof.
  intros prophet sqrt_float historical forecast predictions
         Hlen Hfit Hlow Hhigh.
  assert (Htest : length (iloc_last 30 historical) = 30%nat)
    by (apply iloc_last_length; lia).
  rewrite calculate_accuracy_long by exact Hlen.
  rewrite Hfit. cbn [bindR]. cbv zeta.
  fold (date_matched (iloc_last 30 historical) predictions).
  destruct (Nat.eqb_spec
              (length (date_matched (iloc_last 30 historical) predictions)) 0)
    as [E|_]; [lia|].
  rewrite broadcast_mismatch; [reflexivity| | |];
    rewrite ?length_firstn, !length_map, ?Htest; lia.
Qed.

Lemma accuracy_missing_test_date_raises_witness :
  length (date_matched (iloc_last 30 gapped_series)
            (map (fun d => {| ds := d; yhat := 250; yhat_lower := 249;
                              yhat_upper := 251 |})
                 (map Z.of_nat (seq 1 120)))) = 29%nat
  /\ calculate_accuracy (flat_prophet 250) sample_sqrt gapped_series []
     = Raise (ValueError "operands could not be broadcast together").
Proof.
  split; [reflexivity|].
  destruct (flat_prophet 250 (prophet_defaults Enabled Enabled)
              (iloc_to_last 30 gapped_series) 30) as [predictions|e] eqn:Hfit;
    [|discriminate].
  apply (accuracy_missing_test_date_raises (flat_prophet 250) sample_sqrt
           gapped_series [] predictions).
  - apply Nat.leb_le. reflexivity.
  - exact Hfit.
  - injection Hfit as <-. apply Nat.leb_le. vm_compute. reflexivity.
  - injection Hfit as <-. apply Nat.ltb_lt. vm_compute. reflexivity.
Defined.

(** With a single test date predicted, NumPy broadcasts that one
    prediction against all 30 true values: the mean absolute error is taken
    over 30 pairs, 29 of which pair day 91's prediction with another day's
    balance. *)
Lemma accuracy_single_match_broadcasts :
  length (iloc_last 30 paused_series) = 30%nat
  /\ map ds (date_matched (iloc_last 30 paused_series)
               (map (fun d => {| ds := d; yhat := 250; yhat_lower := 249;
                                 yhat_upper := 251 |})
                    (map Z.of_nat (seq 1 120)))) = [91]
  /\ exists m,
       calculate_accuracy (flat_prophet 250) sample_sqrt paused_series []
       = Ok m
       /\ dict_get m "mae" = Ok (Some (Fin (9667 # 100))).
Proof.
  split; [reflexivity|]. split; [reflexivity|].
  eexists. split; [vm_compute; reflexivity|]. reflexivity.
Qed.

(** ** Forecast pipeline *)

Section Pipeline.
Variable prophet : prophet_params -> frame -> Z -> result (list forecast_point).
Variable sqrt_float : Q -> Q.
Variable model_version : string.
Variable processing_time : Z.
Variable alert_conflict : alert -> alert -> bool.
Variables run company : string.
Variable horizon : Z.

Lemma shortage_loop_session cb pts s :
  shortage_loop alert_conflict company cb pts s
  = (Ok tt,
     {| work := shortage_write alert_conflict company cb pts (work s);
        committed := committed s;
        snapshots := snapshots s |}).
Proof.
  unfold shortage_write.
  induction pts as [|[[d p] lo] pts IH]; simpl.
  - now destruct s.
  - destruct (below_threshold p cb); [reflexivity|exact IH].
Qed.

Lemma scenario_loop_step df scenario rest accuracy_metrics s :
  scenario_loop prophet sqrt_float model_version run company horizon df
                (scenario :: rest) accuracy_metrics s
  = match generate_prophet_forecast prophet df horizon scenario with
    | Raise e => (Raise e, s)
    | Ok fs =>
        let db' := append_forecasts
                     (forecast_rows model_version run company scenario fs)
                     (work s) in
        let s' := {| work := db'; committed := db';
                     snapshots := snapshots s ++ [db'] |} in
        if String.eqb scenario "baseline" then
          match calculate_accuracy prophet sqrt_float df fs with
          | Raise e => (Raise e, s')
          | Ok m => scenario_loop prophet sqrt_float model_version run
                                  company horizon df rest m s'
          end
        else scenario_loop prophet sqrt_float model_version run company
                           horizon df rest accuracy_metrics s'
    end.
Proof.
  cbn [scenario_loop]. unfold bindM at 1. unfold lift at 1.
  destruct (generate_prophet_forecast prophet df horizon scenario)
    as [fs|e]; [|reflexivity].
  unfold bindM at 1. rewrite store_forecasts_run. cbv zeta.
  unfold bindM at 1.
  destruct (String.eqb scenario "baseline").
  - unfold lift.
    destruct (calculate_accuracy prophet sqrt_float df fs); reflexivity.
  - reflexivity.
Qed.

(** The pipeline with its loop unrolled: what is published, outcome by
    outcome. The last outcome is the rejected completing UPDATE. *)
Lemma pipeline_run_unrolled db :
  pipeline_run prophet sqrt_float model_version processing_time
               alert_conflict run company horizon db
  = let db1 := mark_processing run db in
    let df := prepare_prophet_data (fetch_transactions company db) in
    let forecast := generate_prophet_forecast prophet df horizon in
    let rows := forecast_rows model_version run company in
    if Nat.ltb (length (fetch_transactions company db)) 90
    then failed_session run insufficient_history db1 [db1]
    else
      match forecast "pessimistic"%string with
      | Raise e => failed_session run e db1 [db1]
      | Ok fp =>
          let db2 := append_forecasts (rows "pessimistic"%string fp) db1 in
          match forecast "baseline"%string with
          | Raise e => failed_session run e db2 [db1; db2]
          | Ok fb =>
              let db3 := append_forecasts (rows "baseline"%string fb) db2 in
              match calculate_accuracy prophet sqrt_float df fb with
              | Raise e => failed_session run e db3 [db1; db2; db3]
              | Ok m =>
                  match forecast "optimistic"%string with
                  | Raise e => failed_session run e db3 [db1; db2; db3]
                  | Ok fo =>
                      let db4 :=
                        append_forecasts (rows "optimistic"%string fo) db3 in
                      failed_session run rejected_statement db4
                                     [db1; db2; db3; db4]
                  end
              end
          end
      end.
Proof.
  unfold pipeline_run, run_forecast_pipeline, try_except, pipeline_body.
  unfold bindM at 1. unfold execute at 1. unfold bindM at 1.
  unfold commit at 1. unfold bindM at 1. unfold query at 1.
  cbn [work committed snapshots open_session app].
  change (fetch_transactions company (mark_processing run db))
    with (fetch_transactions company db).
  unfold bindM at 1. unfold lift at 1. unfold check_history.
  destruct (Nat.ltb (length (fetch_transactions company db)) 90).
  { reflexivity. }
  unfold bindM at 1. unfold scenarios.
  rewrite scenario_loop_step.
  destruct (generate_prophet_forecast prophet _ horizon "pessimistic")
    as [fp|e]; [|reflexivity].
  cbv zeta. cbn [String.eqb Ascii.eqb Bool.eqb work snapshots app].
  rewrite scenario_loop_step.
  destruct (generate_prophet_forecast prophet _ horizon "baseline")
    as [fb|e]; [|reflexivity].
  cbv zeta. cbn [String.eqb Ascii.eqb Bool.eqb work snapshots app].
  destruct (calculate_accuracy prophet sqrt_float _ fb) as [m|e];
    [|reflexivity].
  rewrite scenario_loop_step.
  destruct (generate_prophet_forecast prophet _ horizon "optimistic")
    as [fo|e]; [|reflexivity].
  cbv zeta. cbn [String.eqb Ascii.eqb Bool.eqb work snapshots app].
  cbn [scenario_loop]. unfold ret at 1.
  unfold bindM at 1. unfold execute_rejected at 1. unfold raise at 1.
  reflexivity.
Qed.

Lemma pipeline_try_unrolled db :
  pipeline_try prophet sqrt_float model_version processing_time
               alert_conflict run company horizon db
  = let df := prepare_prophet_data (fetch_transactions company db) in
    let forecast := generate_prophet_forecast prophet df horizon in
    if Nat.ltb (length (fetch_transactions company db)) 90
    then Raise insufficient_history
    else
      fp <~ forecast "pessimistic"%string ;;
      fb <~ forecast "baseline"%string ;;
      m <~ calculate_accuracy prophet sqrt_float df fb ;;
      fo <~ forecast "optimistic"%string ;;
      Raise rejected_statement.
Proof.
  unfold pipeline_try, pipeline_body.
  unfold bindM at 1. unfold execute at 1. unfold bindM at 1.
  unfold commit at 1. unfold bindM at 1. unfold query at 1.
  cbn [work committed snapshots open_session app].
  change (fetch_transactions company (mark_processing run db))
    with (fetch_transactions company db).
  unfold bindM at 1. unfold lift at 1. unfold check_history.
  destruct (Nat.ltb (length (fetch_transactions company db)) 90).
  { reflexivity. }
  unfold bindM at 1. unfold scenarios.
  rewrite scenario_loop_step.
  destruct (generate_prophet_forecast prophet _ horizon "pessimistic")
    as [fp|e]; [|reflexivity].
  cbv zeta. cbn [String.eqb Ascii.eqb Bool.eqb work snapshots app bindR].
  rewrite scenario_loop_step.
  destruct (generate_prophet_forecast prophet _ horizon "baseline")
    as [fb|e]; [|reflexivity].
  cbv zeta. cbn [String.eqb Ascii.eqb Bool.eqb work snapshots app bindR].
  destruct (calculate_accuracy prophet sqrt_float _ fb) as [m|e];
    [|reflexivity].
  rewrite scenario_loop_step.
  destruct (generate_prophet_forecast prophet _ horizon "optimistic")
    as [fo|e]; [|reflexivity].
  cbv zeta. cbn [String.eqb Ascii.eqb Bool.eqb work snapshots app bindR].
  cbn [scenario_loop]. unfold ret at 1.
  unfold bindM at 1. unfold execute_rejected at 1. unfold raise at 1.
  reflexivity.
Qed.

End Pipeline.

Lemma fetch_transactions_length company db :
  length (fetch_transactions company db) = length (distinct_days company db).
Proof.
  unfold fetch_transactions, distinct_days.
  now rewrite length_map, order_by_length.
Qed.

Lemma update_runs_In run f db r :
  (forall r0, run_id (f r0) = run_id r0) ->
  In r (forecast_runs (update_runs run f db)) -> run_id r = run ->
  exists r0, In r0 (forecast_runs db) /\ run_id r0 = run /\ r = f r0.
Proof.
  intros Hid Hin Hrun. cbn in Hin. apply in_map_iff in Hin.
  destruct Hin as (r0 & Hr & Hin).
  destruct (String.eqb_spec (run_id r0) run) as [E|E].
  - exists r0. auto.
  - subst r. contradiction.
Qed.

Lemma update_runs_exists run f db r0 :
  In r0 (forecast_runs db) -> run_id r0 = run ->
  In (f r0) (forecast_runs (update_runs run f db)).
Proof.
  intros Hin Hrun. cbn. apply in_map_iff. exists r0. split; [|exact Hin].
  apply String.eqb_eq in Hrun. now rewrite Hrun.
Qed.

Lemma mark_failed_rows run msg db r :
  In r (forecast_runs (mark_failed run msg db)) -> run_id r = run ->
  run_status r = "failed"%string /\ run_error_message r = Some msg.
Proof.
  intros Hin Hrun. unfold mark_failed in Hin.
  apply update_runs_In in Hin; [|reflexivity|exact Hrun].
  destruct Hin as (r0 & _ & _ & ->). split; reflexivity.
Qed.

Lemma mark_processing_rows run db r :
  In r (forecast_runs (mark_processing run db)) -> run_id r = run ->
  run_status r = "processing"%string.
Proof.
  intros Hin Hrun. unfold mark_processing in Hin.
  apply update_runs_In in Hin; [|reflexivity|exact Hrun].
  destruct Hin as (r0 & _ & _ & ->). reflexivity.
Qed.

Lemma mark_processing_exists run db :
  (exists r, In r (forecast_runs db) /\ run_id r = run) ->
  exists r, In r (forecast_runs (mark_processing run db)) /\ run_id r = run.
Proof.
  intros (r0 & Hin & Hrun). unfold mark_processing.
  eexists. split.
  - apply update_runs_exists; eassumption.
  - exact Hrun.
Qed.

Lemma mark_failed_exists run msg db :
  (exists r, In r (forecast_runs db) /\ run_id r = run) ->
  run_has_status run "failed" (mark_failed run msg db).
Proof.
  intros (r0 & Hin & Hrun). unfold run_has_status, mark_failed.
  eexists. split.
  - apply update_runs_exists; eassumption.
  - split; [exact Hrun|reflexivity].
Qed.

(** C6. The rows that [fetch_transactions] returns are the distinct days of
    the company's history. With fewer than 90 of them the [try] block
    raises the insufficient-history error, the handler records status
    failed with the error's message, and the run ends there: the only
    things published are the processing mark and the failure, and no
    forecast row is written. With 90 or more the length check passes, so
    the error is not raised, and the run goes on to the forecaster: an
    exception of the pessimistic forecast is the outcome of the run. *)
Theorem insufficient_history_fails_run :
  forall prophet sqrt_float model_version processing_time alert_conflict
         run company horizon db,
    let days := length (distinct_days company db) in
    let outcome := pipeline_try prophet sqrt_float model_version
                     processing_time alert_conflict run company horizon db in
    let final := pipeline_run prophet sqrt_float model_version
                   processing_time alert_conflict run company horizon db in
    let db1 := mark_processing run db in
    let message := "Insufficient transaction history (need 90+ days)"%string in
    length (fetch_transactions company db) = days
    /\ ((days < 90)%nat ->
        outcome = Raise (ValueError message)
        /\ snapshots final = [db1; mark_failed run message db1]
        /\ committed final = mark_failed run message db1
        /\ forecasts (committed final) = forecasts db
        /\ (forall r, In r (forecast_runs (committed final)) ->
                      run_id r = run ->
                      run_status r = "failed"%string
                      /\ run_error_message r = Some message)
        /\ ((exists r, In r (forecast_runs db) /\ run_id r = run) ->
            run_has_status run "failed" (committed final)))
    /\ ((90 <= days)%nat ->
        check_history (fetch_transactions company db) = Ok tt
        /\ forall e,
            generate_prophet_forecast prophet
              (prepare_prophet_data (fetch_transactions company db))
              horizon "pessimistic" = Raise e ->
            outcome = Raise e).
Proof.
  intros prophet sqrt_float mv time conflict run company horizon db
         days outcome final db1 message.
  split; [apply fetch_transactions_length|]. split.
  - intros Hdays.
    assert (Hlt : Nat.ltb (length (fetch_transactions company db)) 90 = true).
    { apply Nat.ltb_lt. rewrite fetch_transactions_length. exact Hdays. }
    unfold outcome, final.
    rewrite pipeline_try_unrolled, pipeline_run_unrolled. cbv zeta.
    rewrite Hlt. cbn [failed_session committed snapshots app].
    split; [reflexivity|]. split; [reflexivity|]. split; [reflexivity|].
    split; [reflexivity|]. split.
    + intros r Hin Hrun. now apply (mark_failed_rows run _ db1).
    + intros Hrow. apply mark_failed_exists, mark_processing_exists, Hrow.
  - intros Hdays.
    assert (Hge : Nat.ltb (length (fetch_transactions company db)) 90 = false).
    { apply Nat.ltb_ge. rewrite fetch_transactions_length. exact Hdays. }
    split.
    + unfold check_history. rewrite Hge. reflexivity.
    + intros e Hp. unfold outcome.
      rewrite pipeline_try_unrolled. cbv zeta. rewrite Hge, Hp. reflexivity.
Qed.

Lemma insufficient_history_fails_run_witness :
  length (distinct_days "acme" (ledger_db 89)) = 89%nat
  /\ pipeline_try (flat_prophet 250) sample_sqrt "1.0.0" 40 no_conflict
                  "run-1" "acme" 7 (ledger_db 89)
     = Raise (ValueError "Insufficient transaction history (need 90+ days)")
  /\ run_has_status "run-1" "failed"
       (committed (pipeline_run (flat_prophet 250) sample_sqrt "1.0.0" 40
                                no_conflict "run-1" "acme" 7 (ledger_db 89)))
  /\ check_history (fetch_transactions "acme" (ledger_db 90)) = Ok tt
  /\ pipeline_try failing_prophet sample_sqrt "1.0.0" 40 no_conflict
                  "run-1" "acme" 7 (ledger_db 90)
     = Raise (LibraryError "fit failed").
Proof.
  destruct (insufficient_history_fails_run (flat_prophet 250) sample_sqrt
              "1.0.0" 40 no_conflict "run-1" "acme" 7 (ledger_db 89))
    as (_ & Hshort & _).
  destruct (insufficient_history_fails_run failing_prophet sample_sqrt
              "1.0.0" 40 no_conflict "run-1" "acme" 7 (ledger_db 90))
    as (_ & _ & Hlong).
  assert (H89 : (length (distinct_days "acme" (ledger_db 89)) < 90)%nat)
    by (apply Nat.ltb_lt; vm_compute; reflexivity).
  assert (H90 : (90 <= length (distinct_days "acme" (ledger_db 90)))%nat)
    by (apply Nat.leb_le; vm_compute; reflexivity).
  destruct (Hshort H89) as (Hraise & _ & _ & _ & _ & Hstatus).
  destruct (Hlong H90) as (Hcheck & Hpast).
  split; [vm_compute; reflexivity|]. split; [exact Hraise|]. split.
  - apply Hstatus. eexists. split; [right; left; reflexivity|reflexivity].
  - split; [exact Hcheck|]. apply Hpast. vm_compute. reflexivity.
Defined.

(** *** Order of the published writes *)

Lemma not_completed run snap status :
  (forall r, In r (forecast_runs snap) -> run_id r = run ->
             run_status r = status) ->
  status <> "completed"%string ->
  ~ run_has_status run "completed" snap.
Proof.
  intros Hall Hne (r & Hin & Hid & Hst).
  apply Hne. rewrite <- Hst. symmetry. now apply Hall.
Qed.

Lemma update_runs_metrics run f db :
  (forall r, run_accuracy_metrics (f r) = run_accuracy_metrics r) ->
  map run_accuracy_metrics (forecast_runs (update_runs run f db))
  = map run_accuracy_metrics (forecast_runs db).
Proof.
  intros Hf. unfold update_runs. cbn [forecast_runs].
  rewrite map_map. apply map_ext. intros r.
  destruct (String.eqb (run_id r) run); [apply Hf|reflexivity].
Qed.

Lemma mark_processing_metrics run db :
  map run_accuracy_metrics (forecast_runs (mark_processing run db))
  = map run_accuracy_metrics (forecast_runs db).
Proof. apply update_runs_metrics. reflexivity. Qed.

Lemma mark_failed_metrics run msg db :
  map run_accuracy_metrics (forecast_runs (mark_failed run msg db))
  = map run_accuracy_metrics (forecast_runs db).
Proof. apply update_runs_metrics. reflexivity. Qed.

(** A published state is quiet for [run] when the run is not completed in
    it and the metrics column is the one of [db]. *)
Lemma processing_quiet run db snap :
  forecast_runs snap = forecast_runs (mark_processing run db) ->
  ~ run_has_status run "completed" snap
  /\ map run_accuracy_metrics (forecast_runs snap)
     = map run_accuracy_metrics (forecast_runs db).
Proof.
  intros E. split.
  - apply (not_completed run _ "processing"); [|discriminate].
    intros r Hr Hid. rewrite E in Hr. now apply (mark_processing_rows run db).
  - rewrite E. apply mark_processing_metrics.
Qed.

Lemma failed_session_quiet run e db last published snap :
  forecast_runs last = forecast_runs (mark_processing run db) ->
  Forall (fun p => forecast_runs p = forecast_runs (mark_processing run db))
         published ->
  In snap (snapshots (failed_session run e last published)) ->
  ~ run_has_status run "completed" snap
  /\ map run_accuracy_metrics (forecast_runs snap)
     = map run_accuracy_metrics (forecast_runs db).
Proof.
  intros Hlast Hpub Hin. cbn in Hin. apply in_app_or in Hin.
  destruct Hin as [Hin|[<-|[]]].
  - rewrite Forall_forall in Hpub. apply processing_quiet, Hpub, Hin.
  - split.
    + apply (not_completed run _ "failed"); [|discriminate].
      intros r Hr Hid. now apply (mark_failed_rows run (str_exn e) last).
    + rewrite mark_failed_metrics, Hlast. apply mark_processing_metrics.
Qed.

(** What [store_forecasts] puts into a row, column by column. *)
Lemma forecast_rows_columns model_version run company scenario fs :
  Forall2 (fun p r =>
             f_run r = run /\ f_company r = company
             /\ f_scenario r = scenario /\ f_date r = ds p
             /\ f_predicted_balance r = py_int (fmul (yhat p) 100))
          fs (forecast_rows model_version run company scenario fs).
Proof.
  unfold forecast_rows.
  induction fs as [|p fs IH]; cbn [map]; constructor; [|exact IH].
  repeat split; reflexivity.
Qed.

(** C9. The writes are issued in the order of the claim, but the last one
    never takes effect: the completing UPDATE, the one statement that would
    store the accuracy metrics and set status completed, is rejected. In
    every run, the first published state is the processing mark, no
    published state has the run completed, and the metrics column is never
    written. The run whose history is long enough and whose three forecasts
    and accuracy evaluation succeed publishes the processing mark, then the
    rows of the pessimistic, the baseline and the optimistic scenario (each
    row with the run's id, the company, the scenario, the point's date and
    its balance in cents), and then status failed with the message of the
    rejected statement. *)
Theorem completing_update_never_applies :
  forall prophet sqrt_float model_version processing_time alert_conflict
         run company horizon db,
    let final := pipeline_run prophet sqrt_float model_version
                   processing_time alert_conflict run company horizon db in
    let outcome := pipeline_try prophet sqrt_float model_version
                     processing_time alert_conflict run company horizon db in
    let df := prepare_prophet_data (fetch_transactions company db) in
    let forecast := generate_prophet_forecast prophet df horizon in
    let rows := forecast_rows model_version run company in
    (exists later, snapshots final = mark_processing run db :: later)
    /\ (forall snap,
          In snap (snapshots final) ->
          ~ run_has_status run "completed" snap
          /\ map run_accuracy_metrics (forecast_runs snap)
             = map run_accuracy_metrics (forecast_runs db))
    /\ (forall fp fb fo m,
          (90 <= length (distinct_days company db))%nat ->
          forecast "pessimistic"%string = Ok fp ->
          forecast "baseline"%string = Ok fb ->
          forecast "optimistic"%string = Ok fo ->
          calculate_accuracy prophet sqrt_float df fb = Ok m ->
          let db1 := mark_processing run db in
          let db2 := append_forecasts (rows "pessimistic"%string fp) db1 in
          let db3 := append_forecasts (rows "baseline"%string fb) db2 in
          let db4 := append_forecasts (rows "optimistic"%string fo) db3 in
          let db5 := mark_failed run (str_exn rejected_statement) db4 in
          snapshots final = [db1; db2; db3; db4; db5]
          /\ committed final = db5
          /\ outcome = Raise rejected_statement
          /\ forecasts db5
             = ((forecasts db ++ rows "pessimistic"%string fp)
                  ++ rows "baseline"%string fb) ++ rows "optimistic"%string fo
          /\ Forall (fun scenario_points =>
                       Forall2 (fun p r =>
                                  f_run r = run /\ f_company r = company
                                  /\ f_scenario r = fst scenario_points
                                  /\ f_date r = ds p
                                  /\ f_predicted_balance r
                                     = py_int (fmul (yhat p) 100))
                               (snd scenario_points)
                               (rows (fst scenario_points)
                                     (snd scenario_points)))
                    [("pessimistic"%string, fp); ("baseline"%string, fb);
                     ("optimistic"%string, fo)]
          /\ (forall r, In r (forecast_runs db5) -> run_id r = run ->
                        run_status r = "failed"%string
                        /\ run_error_message r
                           = Some (str_exn rejected_statement))).
Proof.
  intros prophet sqrt_float mv time conflict run company horizon db
         final outcome df forecast rows.
  unfold final, outcome.
  rewrite pipeline_run_unrolled, pipeline_try_unrolled. cbv zeta.
  fold df. fold forecast. fold rows.
  split; [|split].
  - destruct (Nat.ltb _ 90); [eexists; reflexivity|].
    destruct (forecast "pessimistic"%string); [|eexists; reflexivity].
    destruct (forecast "baseline"%string); [|eexists; reflexivity].
    destruct (calculate_accuracy prophet sqrt_float df a0);
      [|eexists; reflexivity].
    destruct (forecast "optimistic"%string); eexists; reflexivity.
  - intros snap.
    destruct (Nat.ltb _ 90).
    { apply failed_session_quiet; [reflexivity|]. repeat constructor. }
    destruct (forecast "pessimistic"%string) as [fp|e].
    2:{ apply failed_session_quiet; [reflexivity|]. repeat constructor. }
    destruct (forecast "baseline"%string) as [fb|e].
    2:{ apply failed_session_quiet; [reflexivity|]. repeat constructor. }
    destruct (calculate_accuracy prophet sqrt_float df fb) as [m|e].
    2:{ apply failed_session_quiet; [reflexivity|]. repeat constructor. }
    destruct (forecast "optimistic"%string) as [fo|e].
    2:{ apply failed_session_quiet; [reflexivity|]. repeat constructor. }
    apply failed_session_quiet; [reflexivity|]. repeat constructor.
  - intros fp fb fo m Hdays Hp Hb Ho Hm.
    rewrite <- fetch_transactions_length in Hdays.
    apply Nat.ltb_ge in Hdays. rewrite Hdays, Hp. cbn [bindR].
    rewrite Hb. cbn [bindR]. rewrite Hm. cbn [bindR]. rewrite Ho.
    cbn [bindR failed_session snapshots committed app].
    split; [reflexivity|]. split; [reflexivity|]. split; [reflexivity|].
    split; [reflexivity|]. split.
    + repeat constructor; apply forecast_rows_columns.
    + intros r Hin Hid.
      now apply (mark_failed_rows run (str_exn rejected_statement)
                   (append_forecasts (rows "optimistic"%string fo)
                      (append_forecasts (rows "baseline"%string fb)
                         (append_forecasts (rows "pessimistic"%string fp)
                            (mark_processing run db))))).
Qed.

Lemma completing_update_never_applies_witness :
  let final := pipeline_run (flat_prophet 250) sample_sqrt "1.0.0" 40
                 no_conflict "run-1" "acme" 7 (ledger_db 90) in
  map (status_of "run-1") (snapshots final)
  = [["processing"%string]; ["processing"%string]; ["processing"%string];
     ["processing"%string]; ["failed"%string]]
  /\ map (fun snap => length (forecasts snap)) (snapshots final)
     = [0; 7; 14; 21; 21]%nat
  /\ pipeline_try (flat_prophet 250) sample_sqrt "1.0.0" 40
                  no_conflict "run-1" "acme" 7 (ledger_db 90)
     = Raise rejected_statement.
Proof.
  intros final.
  destruct (completing_update_never_applies (flat_prophet 250) sample_sqrt
              "1.0.0" 40 no_conflict "run-1" "acme" 7 (ledger_db 90))
    as (_ & _ & Hsuccess).
  set (df := prepare_prophet_data (fetch_transactions "acme" (ledger_db 90)))
    in Hsuccess.
  destruct (generate_prophet_forecast (flat_prophet 250) df 7 "pessimistic")
    as [fp|e] eqn:Hp; [|discriminate].
  destruct (generate_prophet_forecast (flat_prophet 250) df 7 "baseline")
    as [fb|e] eqn:Hb; [|discriminate].
  destruct (generate_prophet_forecast (flat_prophet 250) df 7 "optimistic")
    as [fo|e] eqn:Ho; [|discriminate].
  destruct (calculate_accuracy (flat_prophet 250) sample_sqrt df fb)
    as [m|e] eqn:Hm; [|discriminate].
  assert (H90 : (90 <= length (distinct_days "acme" (ledger_db 90)))%nat)
    by (apply Nat.leb_le; vm_compute; reflexivity).
  destruct (Hsuccess fp fb fo m H90 eq_refl eq_refl eq_refl Hm)
    as (Hsnap & _ & Hout & _).
  fold final in Hsnap. rewrite Hsnap.
  vm_compute in Hp, Hb, Ho. injection Hp as <-. injection Ho as <-.
  vm_compute in Hm. injection Hb as <-. injection Hm as <-.
  split; [vm_compute; reflexivity|]. split; [vm_compute; reflexivity|].
  exact Hout.
Defined.

(** ** Anomaly scorer *)

Lemma mapR_Forall {A B} (f : A -> result B) (P : B -> Prop) l ys :
  (forall x y, In x l -> f x = Ok y -> P y) ->
  mapR f l = Ok ys -> Forall P ys.
Proof.
  revert ys. induction l as [|x l IH]; intros ys Hf; simpl.
  - intros [= <-]. constructor.
  - destruct (f x) as [y|e] eqn:Hx; [|discriminate]. cbn [bindR].
    destruct (mapR f l) as [ys'|e] eqn:Hl; [|discriminate]. cbn [bindR].
    intros [= <-]. constructor.
    + apply (Hf x); [now left|exact Hx].
    + apply IH; [|reflexivity]. intros x' y' Hin. apply Hf. now right.
Qed.

Lemma mapR_total {A B} (f : A -> result B) l :
  (forall x, In x l -> exists y, f x = Ok y) ->
  exists ys, mapR f l = Ok ys.
Proof.
  induction l as [|x l IH]; intros Hf; simpl.
  - now exists [].
  - destruct (Hf x (or_introl eq_refl)) as (y & ->).
    destruct IH as (ys & ->).
    + intros x' Hin. apply Hf. now right.
    + cbn. now exists (y :: ys).
Qed.

Lemma np_where_eq_In v a from idx :
  In idx (np_where_eq v a from) ->
  (from <= idx)%nat /\ nth_error a (idx - from) = Some v.
Proof.
  revert from. induction a as [|x a IH]; intros from; simpl; [tauto|].
  destruct (Z.eqb_spec x v) as [->|Hne].
  - intros [<-|Hin].
    + split; [lia|]. now rewrite Nat.sub_diag.
    + apply IH in Hin. destruct Hin as (Hle & Hnth). split; [lia|].
      replace (idx - from)%nat with (S (idx - S from)) by lia. exact Hnth.
  - intros Hin. apply IH in Hin. destruct Hin as (Hle & Hnth). split; [lia|].
    replace (idx - from)%nat with (S (idx - S from)) by lia. exact Hnth.
Qed.

Lemma cents_to_units_nonneg (z : Z) :
  (0 <= inject_Z z / 100)%Q <-> 0 <= z.
Proof.
  unfold Qle, Qdiv, Qmult, Qinv, inject_Z. cbn [Qnum Qden]. lia.
Qed.

(** Against C5 as stated. The refund is the one row the stand-in forest
    flags, and the record emitted for it carries the amount -25000.00. *)
Lemma anomaly_amount_can_be_negative :
  exists a,
    detect_anomalies outlier_forest outlier_scores refund_request refund_db
    = Ok ([a], 100%nat)
    /\ transactionId a = "refund-1"%string
    /\ (amount a == -25000)%Q
    /\ (amount a < 0)%Q.
Proof.
  eexists. split; [vm_compute; reflexivity|].
  split; [reflexivity|]. split; reflexivity.
Qed.

(** C5, as the code has it. Every record the scorer emits belongs to a row
    the model flagged, and its amount is that row's signed amount converted
    from cents ([amount / 100]): it is non-negative exactly when the
    transaction's amount is. The absolute amount only enters the features.
    A model that returns one prediction per row and one score per sample
    makes the scorer return. *)
Theorem anomaly_amount_is_signed_amount :
  forall fit_predict score_samples request db,
    let rows := select_transactions request db in
    let predictions := fit_predict 0.05%Q 42 (features_of rows) in
    (forall anomalies total,
        detect_anomalies fit_predict score_samples request db
        = Ok (anomalies, total) ->
        total = length rows
        /\ Forall (fun a =>
                     exists idx row,
                       nth_error rows idx = Some row
                       /\ nth_error predictions idx = Some (-1)
                       /\ transactionId a = tx_id row
                       /\ amount a = (inject_Z (tx_amount row) / 100)%Q
                       /\ ((0 <= amount a)%Q <-> 0 <= tx_amount row))
                  anomalies)
    /\ (length predictions = length rows ->
        (forall X samples,
            length (score_samples 0.05%Q 42 X samples) = length samples) ->
        exists anomalies,
          detect_anomalies fit_predict score_samples request db
          = Ok (anomalies, length rows)).
Proof.
  intros fit_predict score_samples request db rows predictions. split.
  - intros anomalies total. unfold detect_anomalies. fold rows.
    destruct (Nat.ltb (length rows) 100).
    { intros [= <- <-]. split; [reflexivity|constructor]. }
    fold predictions.
    match goal with
    | |- context [mapR ?f ?l] =>
        destruct (mapR f l) as [ys|e] eqn:Hmap; [|discriminate]
    end.
    cbn [bindR]. intros [= <- <-]. split; [reflexivity|].
    eapply mapR_Forall; [|exact Hmap].
    intros idx a Hin Hf. cbv beta in Hf.
    destruct (nth_error rows idx) as [row|] eqn:Hrow; [|discriminate].
    destruct (score_samples _ _ _ _) as [|s scores]; [discriminate|].
    injection Hf as <-.
    apply np_where_eq_In in Hin. destruct Hin as (_ & Hflag).
    rewrite Nat.sub_0_r in Hflag.
    exists idx, row. cbn [transactionId amount].
    repeat split; auto; apply cents_to_units_nonneg.
  - intros Hlen Hscores. unfold detect_anomalies. fold rows.
    destruct (Nat.ltb (length rows) 100); [eexists; reflexivity|].
    fold predictions.
    match goal with
    | |- context [mapR ?f ?l] => destruct (mapR_total f l) as (ys & Hmap)
    end.
    + intros idx Hin. apply np_where_eq_In in Hin.
      destruct Hin as (_ & Hflag). rewrite Nat.sub_0_r in Hflag.
      assert (Hidx : (idx < length rows)%nat).
      { rewrite <- Hlen. apply nth_error_Some. congruence. }
      destruct (nth_error rows idx) as [row|] eqn:Hrow.
      2:{ apply nth_error_None in Hrow. lia. }
      match goal with
      | |- context [score_samples ?c ?r ?X ?smp] =>
          pose proof (Hscores X smp) as Hone;
          destruct (score_samples c r X smp) as [|s scores]
      end.
      * exfalso. rewrite length_firstn, length_skipn in Hone.
        unfold features_of in Hone. rewrite length_map in Hone.
        cbn [length] in Hone. lia.
      * eexists. reflexivity.
    + rewrite Hmap. cbn [bindR]. eexists. reflexivity.
Qed.

Lemma anomaly_amount_is_signed_amount_witness :
  exists anomalies,
    detect_anomalies outlier_forest outlier_scores refund_request refund_db
    = Ok (anomalies, 100%nat)
    /\ Forall (fun a => (amount a < 0)%Q) anomalies
    /\ length anomalies = 1%nat.
Proof.
  destruct (anomaly_amount_is_signed_amount outlier_forest outlier_scores
              refund_request refund_db) as (Hsigned & Htotal).
  destruct Htotal as (anomalies & Hrun).
  - vm_compute. reflexivity.
  - intros X samples. unfold outlier_scores. apply length_map.
  - exists anomalies.
    destruct (Hsigned anomalies _ Hrun) as (_ & Hall).
    vm_compute in Hrun. injection Hrun as <-.
    split; [reflexivity|]. split; [|reflexivity].
    repeat constructor.
Defined.

(** * Further properties of the service *)

(** ** Binary64 rounding keeps the order and fixes floats *)

Lemma pow2_Qpower (k : Z) : (pow2 k == 2 ^ k)%Q.
Proof.
  unfold pow2. destruct (Z.leb_spec 0 k) as [H|H].
  - exact (Zpower_Qpower 2 k H).
  - replace k with (- (- k)) at 2 by lia.
    rewrite Qpower_opp. change 2%Q with (inject_Z 2).
    rewrite <- Zpower_Qpower by lia.
    assert (Hp : 0 < 2 ^ (- k)) by (apply Z.pow_pos_nonneg; lia).
    destruct (2 ^ (- k)) as [|p|p]; try lia. reflexivity.
Qed.

Lemma pow2_pos (k : Z) : (0 < pow2 k)%Q.
Proof. rewrite pow2_Qpower. now apply Qpower_0_lt. Qed.

Lemma pow2_add (a b : Z) : (pow2 (a + b) == pow2 a * pow2 b)%Q.
Proof. rewrite !pow2_Qpower. now apply Qpower_plus. Qed.

Lemma pow2_le (a b : Z) : a <= b -> (pow2 a <= pow2 b)%Q.
Proof.
  intros H. rewrite !pow2_Qpower. now apply Qpower_le_compat_l.
Qed.

Lemma pow2_lt_inv (a b : Z) : (pow2 a < pow2 b)%Q -> a < b.
Proof.
  rewrite !pow2_Qpower. intros H.
  now apply (Qpower_lt_compat_l_inv 2).
Qed.

Lemma rint_Z (n : Z) : rint (inject_Z n) = n.
Proof.
  unfold rint. rewrite Qfloor_Z.
  destruct (Qcompare_spec (inject_Z n - inject_Z n) (1 # 2)) as [H|H|H];
    [lra|reflexivity|lra].
Qed.

Lemma rint_monotone (x y : Q) : (x <= y)%Q -> rint x <= rint y.
Proof.
  intros H. pose proof (Qfloor_resp_le _ _ H) as Hf. unfold rint.
  destruct (Z.eq_dec (Qfloor x) (Qfloor y)) as [E|NE].
  - rewrite <- E.
    destruct (Qcompare_spec (x - inject_Z (Qfloor x)) (1 # 2)) as [Hx|Hx|Hx];
      destruct (Qcompare_spec (y - inject_Z (Qfloor x)) (1 # 2)) as [Hy|Hy|Hy];
      try lra; try destruct (Z.even (Qfloor x)); lia.
  - destruct (Qcompare_spec (x - inject_Z (Qfloor x)) (1 # 2));
      destruct (Qcompare_spec (y - inject_Z (Qfloor y)) (1 # 2));
      try destruct (Z.even (Qfloor x)); try destruct (Z.even (Qfloor y));
      lia.
Qed.

Lemma log2_floor_spec (a : Q) :
  (0 < a)%Q ->
  (pow2 (log2_floor a) <= a)%Q /\ (a < pow2 (log2_floor a + 1))%Q.
Proof.
  destruct a as [n d]. intros Ha.
  assert (Hn : 0 < n) by (unfold Qlt in Ha; simpl in Ha; lia).
  destruct (Z.log2_spec n Hn) as (Hn1 & Hn2).
  destruct (Z.log2_spec (Z.pos d) (Pos2Z.is_pos d)) as (Hd1 & Hd2).
  pose proof (Z.log2_nonneg n) as Hln.
  pose proof (Z.log2_nonneg (Z.pos d)) as Hld.
  unfold log2_floor. cbn [Qnum Qden].
  set (ln := Z.log2 n) in *. set (ld := Z.log2 (Z.pos d)) in *.
  assert (Hup : (n # d < pow2 (ln - ld + 1))%Q).
  { replace (ln - ld + 1) with ((ln + 1) - ld) by lia.
    rewrite pow2_Qpower, Qpower_minus by discriminate.
    change 2%Q with (inject_Z 2). rewrite <- !Zpower_Qpower by lia.
    apply Qlt_shift_div_l.
    - change 0%Q with (inject_Z 0). rewrite <- Zlt_Qlt. lia.
    - unfold Qlt, Qmult, inject_Z. cbn [Qnum Qden]. nia. }
  assert (Hlow : (pow2 (ln - ld - 1) <= n # d)%Q).
  { replace (ln - ld - 1) with (ln - (ld + 1)) by lia.
    rewrite pow2_Qpower, Qpower_minus by discriminate.
    change 2%Q with (inject_Z 2). rewrite <- !Zpower_Qpower by lia.
    apply Qle_shift_div_r.
    - change 0%Q with (inject_Z 0). rewrite <- Zlt_Qlt. lia.
    - unfold Qle, Qmult, inject_Z. cbn [Qnum Qden]. nia. }
  destruct (Qle_bool (pow2 (ln - ld)) (n # d)) eqn:E.
  - apply Qle_bool_iff in E. split; assumption.
  - split; [exact Hlow|].
    replace (ln - ld - 1 + 1) with (ln - ld) by lia.
    apply Qnot_le_lt. intros H. apply Qle_bool_iff in H. congruence.
Qed.

Lemma round_pos_bounds (a : Q) :
  (0 < a)%Q ->
  (pow2 (log2_floor a) <= round_pos a)%Q
  /\ (round_pos a <= pow2 (log2_floor a + 1))%Q.
Proof.
  intros Ha. destruct (log2_floor_spec a Ha) as (Hlow & Hup).
  unfold round_pos. set (e := log2_floor a) in *.
  pose proof (pow2_pos (52 - e)) as Hs.
  assert (H52 : (pow2 e * pow2 (52 - e) == inject_Z (2 ^ 52))%Q).
  { rewrite <- pow2_add. replace (e + (52 - e)) with 52 by lia. reflexivity. }
  assert (H53 : (pow2 (e + 1) * pow2 (52 - e) == inject_Z (2 ^ 53))%Q).
  { rewrite <- pow2_add. replace (e + 1 + (52 - e)) with 53 by lia.
    reflexivity. }
  split.
  - apply Qle_shift_div_l; [exact Hs|]. rewrite H52, <- Zle_Qle.
    rewrite <- (rint_Z (2 ^ 52)). apply rint_monotone.
    rewrite <- H52. apply Qmult_le_compat_r; [exact Hlow|]. lra.
  - apply Qle_shift_div_r; [exact Hs|]. rewrite H53, <- Zle_Qle.
    rewrite <- (rint_Z (2 ^ 53)). apply rint_monotone.
    rewrite <- H53. apply Qmult_le_compat_r; [lra|lra].
Qed.

Lemma round_pos_monotone (a b : Q) :
  (0 < a)%Q -> (a <= b)%Q -> (round_pos a <= round_pos b)%Q.
Proof.
  intros Ha Hab. assert (Hb : (0 < b)%Q) by lra.
  destruct (log2_floor_spec a Ha) as (Ha1 & Ha2).
  destruct (log2_floor_spec b Hb) as (Hb1 & Hb2).
  assert (He : log2_floor a <= log2_floor b).
  { assert (log2_floor a < log2_floor b + 1); [|lia].
    apply pow2_lt_inv. lra. }
  destruct (Z.eq_dec (log2_floor a) (log2_floor b)) as [E|NE].
  - unfold round_pos. rewrite E.
    pose proof (pow2_pos (52 - log2_floor b)) as Hs.
    apply Qmult_le_compat_r; [|apply Qlt_le_weak, Qinv_lt_0_compat, Hs].
    rewrite <- Zle_Qle. apply rint_monotone.
    apply Qmult_le_compat_r; [exact Hab|lra].
  - destruct (round_pos_bounds a Ha) as (_ & Hua).
    destruct (round_pos_bounds b Hb) as (Hlb & _).
    assert (Hp : (pow2 (log2_floor a + 1) <= pow2 (log2_floor b))%Q)
      by (apply pow2_le; lia).
    lra.
Qed.

Lemma round_pos_positive (a : Q) : (0 < a)%Q -> (0 < round_pos a)%Q.
Proof.
  intros Ha. destruct (round_pos_bounds a Ha) as (H & _).
  pose proof (pow2_pos (log2_floor a)). lra.
Qed.

Lemma b64_of_positive (q : Q) : (0 < q)%Q -> (b64 q == round_pos q)%Q.
Proof.
  destruct q as [[|n|n] d]; intros H; try discriminate H.
  unfold b64.
  change (Qeqb0 (Z.pos n # d)) with false.
  change (Qneg (Z.pos n # d)) with false.
  change (Qabs (Z.pos n # d)) with (Z.pos n # d).
  cbv iota zeta. apply Qred_correct.
Qed.

Lemma b64_of_negative (q : Q) : (q < 0)%Q -> (b64 q == - round_pos (- q))%Q.
Proof.
  destruct q as [[|n|n] d]; intros H; try discriminate H.
  unfold b64.
  change (Qeqb0 (Z.neg n # d)) with false.
  change (Qneg (Z.neg n # d)) with true.
  change (Qabs (Z.neg n # d)) with (- (Z.neg n # d))%Q.
  cbv iota zeta. apply Qred_correct.
Qed.

Lemma b64_of_zero (q : Q) : (q == 0)%Q -> b64 q = 0%Q.
Proof.
  destruct q as [[|n|n] d]; intros H; try discriminate H. reflexivity.
Qed.

(** Rounding to the nearest float keeps the order. *)
Lemma b64_monotone (x y : Q) : (x <= y)%Q -> (b64 x <= b64 y)%Q.
Proof.
  intros H.
  destruct (Q_dec x 0) as [[Hx|Hx]|Hx]; destruct (Q_dec y 0) as [[Hy|Hy]|Hy];
    try lra.
  - rewrite (b64_of_negative x Hx), (b64_of_negative y Hy).
    assert (round_pos (- y) <= round_pos (- x))%Q
      by (apply round_pos_monotone; lra).
    lra.
  - rewrite (b64_of_negative x Hx), (b64_of_positive y Hy).
    assert (0 < round_pos (- x))%Q by (apply round_pos_positive; lra).
    assert (0 < round_pos y)%Q by (apply round_pos_positive; lra).
    lra.
  - rewrite (b64_of_negative x Hx), (b64_of_zero y Hy).
    assert (0 < round_pos (- x))%Q by (apply round_pos_positive; lra).
    lra.
  - rewrite (b64_of_positive x Hx), (b64_of_positive y Hy).
    now apply round_pos_monotone.
  - rewrite (b64_of_zero x Hx), (b64_of_positive y Hy).
    assert (0 < round_pos y)%Q by (apply round_pos_positive; lra).
    lra.
  - rewrite (b64_of_zero x Hx), (b64_of_zero y Hy). lra.
Qed.


Lemma rint_comp (x y : Q) : (x == y)%Q -> rint x = rint y.
Proof.
  intros H. unfold rint. rewrite (Qfloor_comp _ _ H).
  assert (E : (x - inject_Z (Qfloor y) ?= 1 # 2)%Q
              = (y - inject_Z (Qfloor y) ?= 1 # 2)%Q).
  { apply Qcompare_comp; [|reflexivity]. now rewrite H. }
  now rewrite E.
Qed.

Lemma log2_floor_unique (v : Q) (k : Z) :
  (pow2 k <= v)%Q -> (v < pow2 (k + 1))%Q -> log2_floor v = k.
Proof.
  intros H1 H2.
  assert (Hv : (0 < v)%Q) by (pose proof (pow2_pos k); lra).
  destruct (log2_floor_spec v Hv) as (H3 & H4).
  assert (k < log2_floor v + 1) by (apply pow2_lt_inv; lra).
  assert (log2_floor v < k + 1) by (apply pow2_lt_inv; lra).
  lia.
Qed.

Lemma round_pos_comp (x y : Q) :
  (0 < x)%Q -> (x == y)%Q -> (round_pos x == round_pos y)%Q.
Proof.
  intros Hx H.
  destruct (log2_floor_spec x Hx) as (H1 & H2).
  assert (E : log2_floor y = log2_floor x)
    by (apply log2_floor_unique; lra).
  unfold round_pos. rewrite E.
  rewrite (rint_comp (y * pow2 (52 - log2_floor x))
                     (x * pow2 (52 - log2_floor x))); [reflexivity|].
  apply Qmult_comp; [symmetry; exact H|reflexivity].
Qed.

Lemma round_pos_idempotent (a : Q) :
  (0 < a)%Q -> (round_pos (round_pos a) == round_pos a)%Q.
Proof.
  intros Ha.
  destruct (log2_floor_spec a Ha) as (Hlow & Hup).
  destruct (round_pos_bounds a Ha) as (Hb1 & Hb2).
  set (e := log2_floor a) in *.
  pose proof (pow2_pos (52 - e)) as Hs.
  pose proof (pow2_pos (52 - (e + 1))) as Hs'.
  set (m := rint (a * pow2 (52 - e))).
  assert (Hv : (round_pos a == inject_Z m / pow2 (52 - e))%Q) by reflexivity.
  assert (Hne : ~ (pow2 (52 - e) == 0)%Q) by lra.
  assert (Hne' : ~ (pow2 (52 - (e + 1)) == 0)%Q) by lra.
  destruct (Qlt_le_dec (round_pos a) (pow2 (e + 1))) as [Hlt|Hge].
  - assert (E : log2_floor (round_pos a) = e)
      by (apply log2_floor_unique; assumption).
    unfold round_pos at 1. rewrite E.
    rewrite (rint_comp _ (inject_Z m)); [rewrite rint_Z; reflexivity|].
    rewrite Hv. field. exact Hne.
  - assert (Heq : (round_pos a == pow2 (e + 1))%Q) by lra.
    assert (E : log2_floor (round_pos a) = e + 1).
    { apply log2_floor_unique; [lra|].
      rewrite Heq. apply Qnot_le_lt. intros H.
      assert (e + 1 + 1 < e + 1 + 1); [|lia].
      apply pow2_lt_inv.
      assert (pow2 (e + 1) < pow2 (e + 1 + 1))%Q; [|lra].
      rewrite !pow2_Qpower. apply Qpower_lt_compat_l; [lia|reflexivity]. }
    unfold round_pos at 1. rewrite E.
    rewrite (rint_comp _ (inject_Z (2 ^ 52))).
    + rewrite rint_Z, Heq.
      assert (H52 : (pow2 (e + 1) * pow2 (52 - (e + 1))
                     == inject_Z (2 ^ 52))%Q).
      { rewrite <- pow2_add. replace (e + 1 + (52 - (e + 1))) with 52 by lia.
        reflexivity. }
      rewrite <- H52. field. exact Hne'.
    + rewrite Heq, <- pow2_add.
      replace (e + 1 + (52 - (e + 1))) with 52 by lia. reflexivity.
Qed.

(** Every value of [b64] is a reduced fraction. *)
Lemma b64_reduced (q : Q) : Qred (b64 q) = b64 q.
Proof.
  unfold b64. destruct (Qeqb0 q); [reflexivity|].
  apply Qred_complete, Qred_correct.
Qed.

(** A float is rounded to itself. *)
Lemma b64_idempotent (q : Q) : b64 (b64 q) = b64 q.
Proof.
  rewrite <- (b64_reduced (b64 q)) at 1. rewrite <- (b64_reduced q) at 2.
  apply Qred_complete.
  destruct (Q_dec q 0) as [[Hq|Hq]|Hq].
  - assert (Hr : (0 < round_pos (- q))%Q) by (apply round_pos_positive; lra).
    pose proof (b64_of_negative q Hq) as Hb.
    assert (H1 : (b64 (b64 q) == - round_pos (- b64 q))%Q)
      by (apply b64_of_negative; lra).
    assert (H2 : (round_pos (- b64 q) == round_pos (round_pos (- q)))%Q)
      by (apply round_pos_comp; lra).
    assert (H3 : (round_pos (round_pos (- q)) == round_pos (- q))%Q)
      by (apply round_pos_idempotent; lra).
    lra.
  - assert (Hr : (0 < round_pos q)%Q) by (now apply round_pos_positive).
    pose proof (b64_of_positive q Hq) as Hb.
    assert (H1 : (b64 (b64 q) == round_pos (b64 q))%Q)
      by (apply b64_of_positive; lra).
    assert (H2 : (round_pos (b64 q) == round_pos (round_pos q))%Q)
      by (apply round_pos_comp; lra).
    assert (H3 : (round_pos (round_pos q) == round_pos q)%Q)
      by (now apply round_pos_idempotent).
    lra.
  - rewrite (b64_of_zero q Hq). reflexivity.
Qed.

Lemma b64_nonneg (q : Q) : (0 <= q)%Q -> (0 <= b64 q)%Q.
Proof. intros H. apply (b64_monotone 0 q H). Qed.

Lemma b64_nonpos (q : Q) : (q <= 0)%Q -> (b64 q <= 0)%Q.
Proof. intros H. apply (b64_monotone q 0 H). Qed.

(** Adding a non-negative float does not lower a float, adding a
    non-positive one does not raise it. *)
Lemma fadd_grows (acc a : Q) :
  b64 acc = acc -> (0 <= a)%Q -> (acc <= fadd acc a)%Q.
Proof.
  intros Hacc Ha. unfold fadd. rewrite Hacc.
  rewrite <- Hacc at 1. apply b64_monotone.
  pose proof (b64_nonneg a Ha). lra.
Qed.

Lemma fadd_falls (acc a : Q) :
  b64 acc = acc -> (a <= 0)%Q -> (fadd acc a <= acc)%Q.
Proof.
  intros Hacc Ha. unfold fadd. rewrite Hacc.
  rewrite <- Hacc at 2. apply b64_monotone.
  pose proof (b64_nonpos a Ha). lra.
Qed.

Lemma fadd_is_float (x y : Q) : b64 (fadd x y) = fadd x y.
Proof. apply b64_idempotent. Qed.

(** ** Balance series builder *)

Lemma zsum_app l1 l2 : zsum (l1 ++ l2) = zsum l1 + zsum l2.
Proof. induction l1 as [|x l1 IH]; simpl; [reflexivity|]. rewrite IH. lia. Qed.

Lemma zsum_perm l1 l2 : Permutation l1 l2 -> zsum l1 = zsum l2.
Proof. induction 1; simpl; lia. Qed.

Lemma zsum_map_add {A} (f g : A -> Z) l :
  zsum (map (fun x => f x + g x) l) = zsum (map f l) + zsum (map g l).
Proof. induction l as [|x l IH]; simpl; [reflexivity|]. rewrite IH. lia. Qed.

Lemma zsum_indicator_absent (x : Z) (v : Z) (l : list Z) :
  ~ In x l -> zsum (map (fun d => if Z.eqb x d then v else 0) l) = 0.
Proof.
  induction l as [|d l IH]; simpl; intros Hn; [reflexivity|].
  destruct (Z.eqb_spec x d) as [->|_]; [tauto|]. rewrite IH; tauto.
Qed.

Lemma zsum_indicator (x : Z) (v : Z) (l : list Z) :
  NoDup l -> In x l ->
  zsum (map (fun d => if Z.eqb x d then v else 0) l) = v.
Proof.
  induction 1 as [|d l Hd Hl IH]; simpl; intros Hin; [contradiction|].
  destruct (Z.eqb_spec x d) as [->|Hne].
  - rewrite zsum_indicator_absent by exact Hd. lia.
  - destruct Hin as [->|Hin]; [contradiction|]. rewrite IH by exact Hin. lia.
Qed.

(** Grouping by day neither loses nor repeats an amount. *)
Lemma group_by_day_total (rows : list transaction) (days : list date) :
  NoDup days ->
  (forall t, In t rows -> In (tx_date t) days) ->
  zsum (map (fun d => zsum (map tx_amount
                              (filter (fun t => Z.eqb (tx_date t) d) rows)))
            days)
  = zsum (map tx_amount rows).
Proof.
  intros Hnd. induction rows as [|t rows IH]; intros Hall.
  - simpl. induction days as [|d days IHd]; simpl; [reflexivity|].
    inversion Hnd; subst. now rewrite IHd.
  - rewrite (map_ext _ (fun d => (if Z.eqb (tx_date t) d then tx_amount t else 0)
               + zsum (map tx_amount
                         (filter (fun t' => Z.eqb (tx_date t') d) rows)))).
    + rewrite zsum_map_add, IH.
      * rewrite zsum_indicator; [reflexivity|exact Hnd|].
        apply Hall. now left.
      * intros t' Ht'. apply Hall. now right.
    + intros d. simpl. destruct (Z.eqb (tx_date t) d); reflexivity.
Qed.

Lemma Sorted_le_NoDup_lt (l : list Z) :
  Sorted Z.le l -> NoDup l -> StronglySorted Z.lt l.
Proof.
  intros Hs Hnd. apply Sorted_StronglySorted in Hs.
  2:{ intros x y z; apply Z.le_trans. }
  induction Hs as [|x l Hs IH Hall]; [constructor|].
  inversion Hnd as [|? ? Hx Hl]; subst. constructor; [now apply IH|].
  rewrite Forall_forall in *. intros y Hy.
  specialize (Hall y Hy). assert (x <> y) by (intros ->; contradiction). lia.
Qed.

Lemma fetch_transactions_dates company db :
  map fst (fetch_transactions company db)
  = order_by (fun d => d) (distinct_days company db).
Proof.
  unfold fetch_transactions, distinct_days.
  rewrite map_map. cbn [fst]. apply map_id.
Qed.

(** X1. [fetch_transactions] returns one row per day on which the company
    has a transaction, in strictly increasing date order, and the amount of
    a row is the sum of that day's amounts of the company, in currency
    units. Transactions of other companies contribute neither days nor
    amounts. *)
Theorem fetch_transactions_one_row_per_day :
  forall company db,
    StronglySorted Z.lt (map fst (fetch_transactions company db))
    /\ (forall d,
          In d (map fst (fetch_transactions company db)) <->
          exists t, In t (transactions db) /\ tx_company t = company
                    /\ tx_date t = d)
    /\ (forall d a,
          In (d, a) (fetch_transactions company db) ->
          a = (inject_Z (day_total company db d) / 100)%Q).
Proof.
  intros company db. split; [|split].
  - rewrite fetch_transactions_dates. apply Sorted_le_NoDup_lt.
    + rewrite <- (map_id (order_by _ _)). apply order_by_sorted.
    + eapply Permutation_NoDup; [apply order_by_perm|].
      unfold distinct_days. apply NoDup_nodup.
  - intros d. rewrite fetch_transactions_dates, order_by_In.
    unfold distinct_days. rewrite nodup_In, in_map_iff. split.
    + intros (t & Hd & Hin). apply filter_In in Hin.
      destruct Hin as (Hin & Hc). apply String.eqb_eq in Hc. exists t. auto.
    + intros (t & Hin & Hc & Hd). exists t. split; [exact Hd|].
      apply filter_In. split; [exact Hin|]. now apply String.eqb_eq.
  - intros d a Hin. unfold fetch_transactions in Hin.
    apply in_map_iff in Hin. destruct Hin as (d' & Heq & _).
    injection Heq as Hd Ha. subst d' a. reflexivity.
Qed.

Lemma fetch_transactions_one_row_per_day_witness :
  In (1, (6000 / 100)%Q) (fetch_transactions "acme" (ledger_db 3))
  /\ day_total "acme" (ledger_db 3) 1 = 6000
  /\ (6000 / 100)%Q
     = (inject_Z (day_total "acme" (ledger_db 3) 1%Z) / 100)%Q.
Proof.
  assert (Hin : In (1, (6000 / 100)%Q)
                   (fetch_transactions "acme" (ledger_db 3)))
    by (vm_compute; left; reflexivity).
  split; [exact Hin|]. split; [reflexivity|].
  destruct (fetch_transactions_one_row_per_day "acme" (ledger_db 3))
    as (_ & _ & Hamount).
  exact (Hamount 1 (6000 / 100)%Q Hin).
Defined.

Lemma cumsum_length acc l : length (cumsum acc l) = length l.
Proof.
  revert acc. induction l as [|[d a] l IH]; intros acc; simpl; auto.
Qed.

Lemma cumsum_dates acc l : map fst (cumsum acc l) = map fst l.
Proof.
  revert acc. induction l as [|[d a] l IH]; intros acc; simpl;
    [reflexivity|]. now rewrite IH.
Qed.

Lemma cumsum_nth acc l n d y :
  nth_error (cumsum acc l) n = Some (d, y) ->
  exists a, nth_error l n = Some (d, a)
            /\ y = fold_left fadd (firstn (S n) (map snd l)) acc.
Proof.
  revert acc n. induction l as [|[d0 a0] l IH]; intros acc n; simpl.
  - destruct n; discriminate.
  - destruct n as [|n]; simpl.
    + intros [= <- <-]. exists a0. split; reflexivity.
    + intros H. apply IH in H. destruct H as (a & Hn & Hy).
      exists a. split; [exact Hn|exact Hy].
Qed.

Lemma cumsum_step acc l n d y d' y' a :
  nth_error (cumsum acc l) n = Some (d, y) ->
  nth_error (cumsum acc l) (S n) = Some (d', y') ->
  nth_error l (S n) = Some (d', a) ->
  y' = fadd y a.
Proof.
  revert acc n. induction l as [|[d0 a0] l IH]; intros acc n; simpl.
  - destruct n; discriminate.
  - destruct n as [|n].
    + intros [= <- <-]. destruct l as [|[d1 a1] l]; simpl; [discriminate|].
      intros [= <- <-] [= <-]. reflexivity.
    + apply IH.
Qed.

Lemma cumsum_floats acc l n d y :
  nth_error (cumsum acc l) n = Some (d, y) -> b64 y = y.
Proof.
  revert acc n. induction l as [|[d0 a0] l IH]; intros acc n; simpl.
  - destruct n; discriminate.
  - destruct n as [|n]; simpl.
    + intros [= <- <-]. apply fadd_is_float.
    + apply IH.
Qed.

(** X2. [prepare_prophet_data] keeps the dates and their order and replaces
    each amount by the running total in float arithmetic: the value at
    position [n] is what adding the amounts at positions [0 .. n] one after
    the other gives, each addition rounded. The rounding shows (the amounts
    0.1 and 0.2 end at 0.30000000000000004, not at 0.3) but never turns
    the direction of a step: after a day whose amount is not negative the
    balance is not lower than the day before, and after a day whose amount
    is not positive it is not higher. *)
Theorem prepare_prophet_data_running_total :
  forall df : frame,
    map fst (prepare_prophet_data df) = map fst df
    /\ (forall n d y,
          nth_error (prepare_prophet_data df) n = Some (d, y) ->
          exists a, nth_error df n = Some (d, a)
                    /\ y = fold_left fadd (firstn (S n) (map snd df)) 0%Q)
    /\ (forall n d y d' y' a,
          nth_error (prepare_prophet_data df) n = Some (d, y) ->
          nth_error (prepare_prophet_data df) (S n) = Some (d', y') ->
          nth_error df (S n) = Some (d', a) ->
          ((0 <= a)%Q -> (y <= y')%Q) /\ ((a <= 0)%Q -> (y' <= y)%Q)).
Proof.
  intros df. unfold prepare_prophet_data. split; [apply cumsum_dates|].
  split.
  - intros n d y H. apply cumsum_nth in H. exact H.
  - intros n d y d' y' a Hy Hy' Ha.
    rewrite (cumsum_step _ _ _ _ _ _ _ _ Hy Hy' Ha).
    pose proof (cumsum_floats _ _ _ _ _ Hy) as Hfloat.
    split; intros Hsign; [now apply fadd_grows|now apply fadd_falls].
Qed.

Lemma prepare_prophet_data_running_total_witness :
  prepare_prophet_data [(1, 1 # 10); (2, 2 # 10)]
  = [(1, 3602879701896397 # 36028797018963968);
     (2, 1351079888211149 # 4503599627370496)]
  /\ ~ (1351079888211149 # 4503599627370496 == 3 # 10)%Q
  /\ (exists a,
         nth_error [(1, 1 # 10); (2, 2 # 10)] 1 = Some (2, a)
         /\ 1351079888211149 # 4503599627370496
            = fold_left fadd (firstn 2 (map snd [(1, 1 # 10); (2, 2 # 10)]))
                        0%Q)
  /\ (3602879701896397 # 36028797018963968
      <= 1351079888211149 # 4503599627370496)%Q.
Proof.
  destruct (prepare_prophet_data_running_total [(1, 1 # 10); (2, 2 # 10)])
    as (_ & Hsum & Hstep).
  split; [vm_compute; reflexivity|]. split; [discriminate|]. split.
  - exact (Hsum 1%nat 2 (1351079888211149 # 4503599627370496)
                ltac:(vm_compute; reflexivity)).
  - apply (Hstep 0%nat 1 (3602879701896397 # 36028797018963968)
                 2 (1351079888211149 # 4503599627370496) (2 # 10));
      [vm_compute; reflexivity|vm_compute; reflexivity|reflexivity|].
    discriminate.
Defined.

(** ** Scenario forecaster *)

Lemma fold_left_max_bounds (l : list Z) (a : Z) :
  a <= fold_left Z.max l a
  /\ forall x, In x l -> x <= fold_left Z.max l a.
Proof.
  revert a. induction l as [|y l IH]; intros a; simpl.
  - split; [lia|tauto].
  - destruct (IH (Z.max a y)) as (Ha & Hl). split; [lia|].
    intros x [<-|Hx]; [lia|]. now apply Hl.
Qed.

Lemma ds_max_upper_bound (df : frame) (last : date) :
  ds_max df = Some last -> forall d, In d (map fst df) -> d <= last.
Proof.
  destruct df as [|[d0 a0] df]; [discriminate|].
  simpl. intros [= <-] d Hd.
  destruct (fold_left_max_bounds (map fst df) d0) as (Hfirst & Hrest).
  destruct Hd as [<-|Hd]; [exact Hfirst|now apply Hrest].
Qed.

Lemma fold_left_max_In (l : list Z) (a : Z) :
  In (fold_left Z.max l a) (a :: l).
Proof.
  revert a. induction l as [|y l IH]; intros a; simpl; [now left|].
  destruct (IH (Z.max a y)) as [H|H]; [|now right; right].
  rewrite <- H. destruct (Z.max_spec a y) as [(_ & E)|(_ & E)]; rewrite E;
    [right; now left|now left].
Qed.

Lemma ds_max_attained (df : frame) (last : date) :
  ds_max df = Some last -> In last (map fst df).
Proof.
  destruct df as [|[d0 a0] df]; [discriminate|].
  simpl. intros [= <-]. apply fold_left_max_In.
Qed.

Lemma ds_max_nonempty (df : frame) :
  df <> [] -> exists last, ds_max df = Some last.
Proof. destruct df as [|[d a] df]; [congruence|]. intros _. now eexists. Qed.

(** X4. Whatever the model returns, [generate_prophet_forecast] hands back
    only points dated strictly after every observed date, keeps every such
    point of the model's output, and adds none of its own. *)
Theorem forecast_points_follow_history :
  forall prophet df horizon scenario fs,
    generate_prophet_forecast prophet df horizon scenario = Ok fs ->
    (forall p d, In p fs -> In d (map fst df) -> d < ds p)
    /\ exists params raw,
         prophet params df horizon = Ok raw
         /\ incl fs raw
         /\ (forall p, In p raw -> df <> [] ->
                       (forall d, In d (map fst df) -> d < ds p) -> In p fs).
Proof.
  intros prophet df horizon scenario fs. unfold generate_prophet_forecast.
  destruct (dict_get interval_width_table scenario) as [w|e]; [|discriminate].
  destruct (dict_get changepoint_scale_table scenario) as [c|e];
    [|discriminate].
  cbn [bindR].
  match goal with
  | |- context [prophet ?params df horizon] =>
      set (model := params);
      destruct (prophet model df horizon) as [raw|e] eqn:Hfit; [|discriminate]
  end.
  cbn [bindR]. intros [= <-]. split.
  - intros p d Hp Hd. apply filter_In in Hp. destruct Hp as (_ & Hf).
    destruct (ds_max df) as [last|] eqn:Hmax; [|discriminate].
    apply Z.ltb_lt in Hf.
    pose proof (ds_max_upper_bound df last Hmax d Hd). lia.
  - exists model, raw. split; [exact Hfit|]. split.
    + intros p Hp. apply filter_In in Hp. tauto.
    + intros p Hp Hne Hafter. apply filter_In. split; [exact Hp|].
      destruct (ds_max_nonempty df Hne) as (last & Hmax). rewrite Hmax.
      apply Z.ltb_lt. apply Hafter.
      now apply ds_max_attained.
Qed.

Lemma forecast_points_follow_history_witness :
  exists fs,
    generate_prophet_forecast (flat_prophet 250) short_series 7 "baseline"
    = Ok fs
    /\ forall p, In p fs -> 100 < ds p.
Proof.
  destruct (generate_prophet_forecast (flat_prophet 250) short_series 7
              "baseline") as [fs|e] eqn:Hrun; [|discriminate].
  exists fs. split; [reflexivity|]. intros p Hp.
  destruct (forecast_points_follow_history (flat_prophet 250) short_series 7
              "baseline" fs Hrun) as (Hafter & _).
  apply (Hafter p 100 Hp). vm_compute. do 99 right. left. reflexivity.
Defined.

Lemma filter_by_date_split (f : date -> bool) (raw : list forecast_point)
    (old new : list date) :
  map ds raw = old ++ new ->
  (forall d, In d old -> f d = false) ->
  (forall d, In d new -> f d = true) ->
  map ds (filter (fun p => f (ds p)) raw) = new.
Proof.
  revert old new.
  induction raw as [|p raw IH]; intros old new Hds Hold Hnew.
  - simpl in *. symmetry in Hds. apply app_eq_nil in Hds. now destruct Hds.
  - destruct old as [|d old]; simpl in Hds.
    + destruct new as [|d new]; [discriminate|].
      injection Hds as Hd Hrest. simpl.
      rewrite Hd, (Hnew d (or_introl eq_refl)). simpl. f_equal; [exact Hd|].
      apply (IH [] new); [exact Hrest|intros ? []|].
      intros d' Hd'. apply Hnew. now right.
    + injection Hds as Hd Hrest. simpl.
      rewrite Hd, (Hold d (or_introl eq_refl)).
      apply (IH old new); [exact Hrest| |exact Hnew].
      intros d' Hd'. apply Hold. now right.
Qed.

Lemma following_days_after last periods d :
  In d (following_days last periods) -> last < d.
Proof.
  unfold following_days. intros H. apply in_map_iff in H.
  destruct H as (i & <- & Hi). apply in_seq in Hi. lia.
Qed.

(** X5. When the model forecasts on Prophet's future frame, the observed
    dates followed by the next [horizon_days] calendar days, the forecaster
    returns exactly [horizon_days] points, dated day by day from the day
    after the last observation. *)
Theorem forecast_covers_horizon :
  forall prophet df horizon scenario last,
    In scenario scenarios ->
    ds_max df = Some last ->
    (forall params, exists raw,
        prophet params df horizon = Ok raw
        /\ map ds raw = map fst df ++ following_days last horizon) ->
    exists fs,
      generate_prophet_forecast prophet df horizon scenario = Ok fs
      /\ map ds fs = following_days last horizon
      /\ length fs = Z.to_nat horizon.
Proof.
  intros prophet df horizon scenario last Hsc Hmax Hmodel.
  unfold generate_prophet_forecast.
  assert (Htables : exists w c,
             dict_get interval_width_table scenario = Ok w
             /\ dict_get changepoint_scale_table scenario = Ok c).
  { destruct Hsc as [<-|[<-|[<-|[]]]]; eexists; eexists; split; reflexivity. }
  destruct Htables as (w & c & -> & ->). cbn [bindR].
  match goal with
  | |- context [prophet ?params df horizon] =>
      destruct (Hmodel params) as (raw & -> & Hds)
  end.
  cbn [bindR]. eexists. split; [reflexivity|]. rewrite Hmax.
  assert (Hdates : map ds (filter (fun p => Z.ltb last (ds p)) raw)
                   = following_days last horizon).
  { apply (filter_by_date_split (Z.ltb last) raw (map fst df)); [exact Hds| |].
    - intros d Hd. apply Z.ltb_ge. now apply (ds_max_upper_bound df).
    - intros d Hd. apply Z.ltb_lt. now apply (following_days_after _ horizon). }
  split; [exact Hdates|].
  rewrite <- (length_map ds), Hdates. unfold following_days.
  now rewrite length_map, length_seq.
Qed.

Lemma forecast_covers_horizon_witness :
  exists fs,
    generate_prophet_forecast (flat_prophet 250) short_series 7 "optimistic"
    = Ok fs
    /\ map ds fs = [101; 102; 103; 104; 105; 106; 107].
Proof.
  destruct (forecast_covers_horizon (flat_prophet 250) short_series 7
              "optimistic" 100) as (fs & Hrun & Hds & _).
  - right. right. left. reflexivity.
  - reflexivity.
  - intros params. eexists. split; reflexivity.
  - exists fs. split; [exact Hrun|]. rewrite Hds. reflexivity.
Defined.

(** X6. A scenario name outside the three table entries raises
    [KeyError] on the first table lookup, before any model is built. *)
Theorem unknown_scenario_raises_key_error :
  forall prophet df horizon scenario,
    ~ In scenario scenarios ->
    generate_prophet_forecast prophet df horizon scenario
    = Raise (KeyError scenario).
Proof.
  intros prophet df horizon scenario Hnot.
  unfold generate_prophet_forecast, interval_width_table.
  cbn [dict_get].
  destruct (String.eqb_spec "pessimistic" scenario) as [E|_].
  { exfalso. apply Hnot. left. exact E. }
  destruct (String.eqb_spec "baseline" scenario) as [E|_].
  { exfalso. apply Hnot. right. left. exact E. }
  destruct (String.eqb_spec "optimistic" scenario) as [E|_].
  { exfalso. apply Hnot. right. right. left. exact E. }
  reflexivity.
Qed.

Lemma unknown_scenario_raises_key_error_witness :
  generate_prophet_forecast (flat_prophet 250) short_series 7 "stress"
  = Raise (KeyError "stress")
  /\ str_exn (KeyError "stress") = "'stress'"%string.
Proof.
  split; [|reflexivity].
  apply unknown_scenario_raises_key_error.
  intros [H|[H|[H|[]]]]; discriminate.
Defined.

(** ** Forecast storage *)




Lemma Forall2_map_right {A B} (R : A -> B -> Prop) (f : A -> B) (l : list A) :
  (forall x, R x (f x)) -> Forall2 R l (map f l).
Proof. intros H. induction l; simpl; constructor; auto. Qed.

(** X7. [store_forecasts] only appends to the [forecasts] table, one row
    per forecast point in the order of the frame, and commits. Every row
    carries the run, company, scenario and date it was called with; its
    inflow and outflow are non-negative, at most one of them is non-zero,
    and their difference is the predicted balance. No other table
    changes. *)
Theorem store_forecasts_appends_rows :
  forall model_version run company forecast_frame scenario s,
    let s' := snd (store_forecasts model_version run company forecast_frame
                                   scenario s) in
    committed s' = work s'
    /\ transactions (work s') = transactions (work s)
    /\ forecast_runs (work s') = forecast_runs (work s)
    /\ bank_accounts (work s') = bank_accounts (work s)
    /\ alerts (work s') = alerts (work s)
    /\ exists rows,
         forecasts (work s') = forecasts (work s) ++ rows
         /\ Forall2 (fun p r =>
                       f_run r = run /\ f_company r = company
                       /\ f_scenario r = scenario /\ f_date r = ds p
                       /\ f_model_version r = model_version
                       /\ 0 <= f_predicted_inflow r
                       /\ 0 <= f_predicted_outflow r
                       /\ f_predicted_inflow r - f_predicted_outflow r
                          = f_predicted_balance r
                       /\ (f_predicted_inflow r = 0
                           \/ f_predicted_outflow r = 0))
                    forecast_frame rows.
Proof.
  intros mv run company fs scenario s s'. subst s'.
  rewrite store_forecasts_run. cbn.
  repeat (split; [reflexivity|]).
  exists (forecast_rows mv run company scenario fs). split; [reflexivity|].
  apply Forall2_map_right. intros p. cbn.
  repeat (split; [reflexivity|]). lia.
Qed.



(** ** Accuracy evaluator on finite values *)

Lemma zip_with_sub_fin (xs ys : list Q) :
  zip_with np_sub (map Fin xs) (map Fin ys)
  = map Fin (zip_with (fun a b => (a + - b)%Q) xs ys).
Proof.
  revert ys. induction xs as [|x xs IH]; intros [|y ys]; simpl;
    try reflexivity. now rewrite IH.
Qed.

Lemma zip_with_div_fin (xs ys : list Q) :
  Forall (fun y => Qeqb0 y = false) ys ->
  zip_with np_div (map Fin xs) (map Fin ys)
  = map Fin (zip_with Qdiv xs ys).
Proof.
  intros Hys. revert xs. induction Hys as [|y ys Hy _ IH]; intros [|x xs];
    simpl; try reflexivity. now rewrite Hy, IH.
Qed.

Lemma fold_np_add_fin (qs : list Q) (a : Q) :
  fold_left np_add (map Fin qs) (Fin a) = Fin (fold_left Qplus qs a).
Proof.
  revert a. induction qs as [|q qs IH]; intros a; simpl; [reflexivity|].
  apply IH.
Qed.

Lemma fold_Qplus_nonneg (qs : list Q) (a : Q) :
  (0 <= a)%Q -> Forall (fun q => (0 <= q)%Q) qs ->
  (0 <= fold_left Qplus qs a)%Q.
Proof.
  intros Ha Hqs. revert a Ha.
  induction Hqs as [|q qs Hq _ IH]; intros a Ha; simpl; [exact Ha|].
  apply IH. rewrite <- (Qplus_0_r 0). now apply Qplus_le_compat.
Qed.

Lemma Qneg_nonneg (q : Q) : (0 <= q)%Q -> Qneg q = false.
Proof.
  unfold Qle, Qneg. simpl. intros H. apply Z.ltb_ge. lia.
Qed.

Lemma Qeqb0_false (q : Q) : ~ (q == 0)%Q -> Qeqb0 q = false.
Proof.
  unfold Qeq, Qeqb0. simpl. intros H. apply Z.eqb_neq. lia.
Qed.

(** The mean of a non-empty array of non-negative finite values. *)
Lemma np_mean_fin_nonneg (qs : list Q) :
  qs <> [] -> Forall (fun q => (0 <= q)%Q) qs ->
  exists m, np_mean (map Fin qs) = Fin m /\ (0 <= m)%Q.
Proof.
  intros Hne Hqs. unfold np_mean, np_sum.
  rewrite fold_np_add_fin, length_map. cbn [np_div].
  assert (Hn : (0 < inject_Z (Z.of_nat (length qs)))%Q).
  { unfold Qlt. simpl. destruct qs; [congruence|]. simpl length. lia. }
  rewrite Qeqb0_false.
  2:{ intros E. rewrite E in Hn. discriminate. }
  eexists. split; [reflexivity|].
  apply Qle_shift_div_l; [exact Hn|]. rewrite Qmult_0_l.
  apply fold_Qplus_nonneg; [apply Qle_refl|exact Hqs].
Qed.

Lemma rint_nonneg (q : Q) : (0 <= q)%Q -> 0 <= rint q.
Proof.
  intros H. unfold rint.
  assert (Hf : 0 <= Qfloor q) by (apply (Qfloor_resp_le 0 q H)).
  destruct (q - inject_Z (Qfloor q) ?= 1 # 2)%Q;
    [destruct (Z.even (Qfloor q))|..]; lia.
Qed.

Lemma round2_fin_nonneg (q : Q) :
  (0 <= q)%Q -> exists r, round2 (Fin q) = Fin r /\ (0 <= r)%Q.
Proof.
  intros H. eexists. split; [reflexivity|].
  apply Qle_shift_div_l; [reflexivity|]. rewrite Qmult_0_l.
  unfold Qle. simpl. pose proof (rint_nonneg (q * 100)) as Hr.
  assert (0 <= rint (q * 100)).
  { apply Hr. rewrite <- (Qmult_0_l 100).
    apply Qmult_le_compat_r; [exact H|discriminate]. }
  lia.
Qed.

Lemma map_abs_fin (qs : list Q) :
  map np_abs (map Fin qs) = map Fin (map Qabs qs).
Proof. rewrite !map_map. reflexivity. Qed.

Lemma map_square_fin (qs : list Q) :
  map square (map Fin qs) = map Fin (map (fun q => (q * q)%Q) qs).
Proof. rewrite !map_map. reflexivity. Qed.

Lemma nonempty_of_length {A} (l : list A) (n : nat) :
  length l = S n -> l <> [].
Proof. destruct l; [discriminate|congruence]. Qed.

(** X9. With at least 120 observations, a prediction for every date of
    the test window and no true value equal to zero, the evaluator returns
    three finite numbers, and MAPE and MAE are not negative. *)
Theorem accuracy_metrics_are_finite :
  forall prophet sqrt_float historical forecast predictions,
    (120 <= length historical)%nat ->
    prophet (prophet_defaults Enabled Enabled) (iloc_to_last 30 historical) 30
    = Ok predictions ->
    (30 <= length (date_matched (iloc_last 30 historical) predictions))%nat ->
    (forall d y, In (d, y) (iloc_last 30 historical) -> ~ (y == 0)%Q) ->
    exists mape rmse mae,
      calculate_accuracy prophet sqrt_float historical forecast
      = Ok [("mape"%string, Some (Fin mape));
            ("rmse"%string, Some (Fin rmse));
            ("mae"%string, Some (Fin mae))]
      /\ (0 <= mape)%Q /\ (0 <= mae)%Q.
Proof.
  intros prophet sqrt_float historical forecast predictions
         Hlen Hfit Hmatched Hnonzero.
  destruct (calculate_accuracy_aligned prophet sqrt_float historical forecast
              predictions Hlen Hfit Hmatched) as (Hdiff & Hcalc).
  rewrite Hcalc. clear Hcalc.
  assert (Htest : length (iloc_last 30 historical) = 30%nat)
    by (apply iloc_last_length; lia).
  set (test := iloc_last 30 historical) in *.
  set (ts := map snd test) in *.
  assert (Hts : length ts = 30%nat) by (unfold ts; now rewrite length_map).
  rewrite <- (map_map yhat Fin) in *. rewrite firstn_map in *.
  set (ps := firstn 30 (map yhat (date_matched test predictions))) in *.
  rewrite zip_with_sub_fin in *.
  set (dq := zip_with (fun a b => (a + - b)%Q) ts ps) in *.
  rewrite length_map in Hdiff.
  assert (Hzero : Forall (fun y => Qeqb0 y = false) ts).
  { apply Forall_forall. intros y Hy. unfold ts in Hy.
    apply in_map_iff in Hy. destruct Hy as ([d y'] & <- & Hin).
    apply Qeqb0_false. exact (Hnonzero d y' Hin). }
  rewrite (zip_with_div_fin dq ts Hzero), !map_abs_fin, map_square_fin.
  assert (Hratio : length (zip_with Qdiv dq ts) = 30%nat).
  { rewrite zip_with_length; congruence. }
  assert (Habs : forall l, Forall (fun q => (0 <= q)%Q) (map Qabs l)).
  { intros l. apply Forall_forall. intros q Hq. apply in_map_iff in Hq.
    destruct Hq as (x & <- & _). apply Qabs_nonneg. }
  destruct (np_mean_fin_nonneg (map Qabs (zip_with Qdiv dq ts)))
    as (m1 & -> & Hm1).
  { apply (nonempty_of_length _ 29). now rewrite length_map. }
  { apply Habs. }
  destruct (np_mean_fin_nonneg (map (fun q => (q * q)%Q) dq))
    as (m2 & -> & Hm2).
  { apply (nonempty_of_length _ 29). rewrite length_map. congruence. }
  { apply Forall_forall. intros q Hq. apply in_map_iff in Hq.
    destruct Hq as (x & <- & _).
    destruct (Qlt_le_dec x 0) as [Hx|Hx].
    - setoid_replace (x * x)%Q with ((- x) * (- x))%Q by ring.
      apply Qmult_le_0_compat; apply (Qopp_le_compat x 0), Qlt_le_weak, Hx.
    - now apply Qmult_le_0_compat. }
  destruct (np_mean_fin_nonneg (map Qabs dq)) as (m3 & -> & Hm3).
  { apply (nonempty_of_length _ 29). rewrite length_map. congruence. }
  { apply Habs. }
  cbn [np_mul np_sqrt]. rewrite (Qneg_nonneg m2 Hm2).
  destruct (round2_fin_nonneg (m1 * 100)) as (r1 & -> & Hr1).
  { rewrite <- (Qmult_0_l 100).
    apply Qmult_le_compat_r; [exact Hm1|discriminate]. }
  destruct (round2_fin_nonneg m3 Hm3) as (r3 & -> & Hr3).
  eexists r1, _, r3. split; [reflexivity|]. split; assumption.
Qed.

Lemma accuracy_metrics_are_finite_witness :
  exists mape rmse mae,
    calculate_accuracy (flat_prophet 240) sample_sqrt steady_series []
    = Ok [("mape"%string, Some (Fin mape));
          ("rmse"%string, Some (Fin rmse));
          ("mae"%string, Some (Fin mae))]
    /\ (0 <= mape)%Q /\ (0 <= mae)%Q.
Proof.
  destruct (flat_prophet 240 (prophet_defaults Enabled Enabled)
              (iloc_to_last 30 steady_series) 30) as [predictions|e] eqn:Hfit;
    [|discriminate].
  apply (accuracy_metrics_are_finite (flat_prophet 240) sample_sqrt
           steady_series [] predictions).
  - apply Nat.leb_le. reflexivity.
  - exact Hfit.
  - injection Hfit as <-. apply Nat.leb_le. vm_compute. reflexivity.
  - intros d y Hin. vm_compute in Hin.
    repeat (destruct Hin as [Hin|Hin];
            [injection Hin as <- <-; discriminate|]).
    contradiction.
Defined.

Lemma filter_none {A} (f : A -> bool) (l : list A) :
  (forall x, In x l -> f x = false) -> filter f l = [].
Proof.
  induction l as [|x l IH]; intros H; simpl; [reflexivity|].
  rewrite (H x (or_introl eq_refl)). apply IH. intros y Hy. apply H. now right.
Qed.

(** X10. When the whole test window lies more than 30 days after the last
    training date, no prediction of a 30-day frame falls on a test date and
    the evaluator returns the undefined metrics, for a series of any
    length from 120 on. *)
Theorem accuracy_undefined_after_long_pause :
  forall prophet sqrt_float historical forecast predictions last,
    (120 <= length historical)%nat ->
    prophet (prophet_defaults Enabled Enabled) (iloc_to_last 30 historical) 30
    = Ok predictions ->
    ds_max (iloc_to_last 30 historical) = Some last ->
    (forall p, In p predictions -> ds p <= last + 30) ->
    (forall d, In d (map fst (iloc_last 30 historical)) -> last + 30 < d) ->
    calculate_accuracy prophet sqrt_float historical forecast
    = Ok undefined_metrics.
Proof.
  intros prophet sqrt_float historical forecast predictions last
         Hlen Hfit Hlast Hframe Hpause.
  rewrite calculate_accuracy_long by exact Hlen.
  rewrite Hfit. cbn [bindR]. cbv zeta.
  rewrite filter_none; [reflexivity|].
  intros p Hp. unfold isin.
  destruct (existsb (Z.eqb (ds p)) (map fst (iloc_last 30 historical)))
    eqn:E; [|reflexivity].
  apply existsb_exists in E. destruct E as (d & Hd & Heq).
  apply Z.eqb_eq in Heq. specialize (Hframe p Hp). specialize (Hpause d Hd).
  lia.
Qed.

Lemma accuracy_undefined_after_long_pause_witness :
  calculate_accuracy (flat_prophet 250) sample_sqrt long_pause_series []
  = Ok undefined_metrics.
Proof.
  destruct (flat_prophet 250 (prophet_defaults Enabled Enabled)
              (iloc_to_last 30 long_pause_series) 30)
    as [predictions|e] eqn:Hfit; [|discriminate].
  apply (accuracy_undefined_after_long_pause (flat_prophet 250) sample_sqrt
           long_pause_series [] predictions 90).
  - apply Nat.leb_le. reflexivity.
  - exact Hfit.
  - reflexivity.
  - vm_compute in Hfit. injection Hfit as <-. intros p Hp.
    repeat (destruct Hp as [<-|Hp]; [cbn [ds]; lia|]). contradiction.
  - intros d Hd. vm_compute in Hd.
    repeat (destruct Hd as [<-|Hd]; [lia|]). contradiction.
Defined.

(** ** Alert deriver: what a run changes, and re-runs *)

Lemma shortage_write_first conflict company cb pts db :
  shortage_write conflict company cb pts db
  = match first_shortage company cb pts with
    | Some a => insert_alert conflict a db
    | None => db
    end.
Proof.
  unfold shortage_write.
  induction pts as [|[[d p] lo] pts IH]; simpl; [reflexivity|].
  destruct (below_threshold p cb); [reflexivity|exact IH].
Qed.

Lemma after_alerts_first conflict company run db :
  after_alerts conflict company run db
  = match first_shortage company (scalar_or_zero (active_balance company db))
                         (baseline_forecasts run db) with
    | Some a => insert_alert conflict a db
    | None => db
    end.
Proof.
  unfold after_alerts, alerts_run, generate_forecast_alerts, bindM, query.
  rewrite shortage_loop_session. cbn [snd commit work committed open_session].
  apply shortage_write_first.
Qed.

Lemma first_shortage_point company cb pts a :
  first_shortage company cb pts = Some a ->
  exists d p lo,
    In (d, p, lo) pts /\ below_threshold p cb = true
    /\ a = cash_shortage_alert company d p.
Proof.
  induction pts as [|[[d p] lo] pts IH]; simpl; [discriminate|].
  destruct (below_threshold p cb) eqn:E.
  - intros [= <-]. exists d, p, lo. auto.
  - intros H. destruct (IH H) as (d' & p' & lo' & Hin & Hb & Ha).
    exists d', p', lo'. auto.
Qed.

Lemma first_shortage_exists company cb pts :
  (exists r, In r pts /\ below_threshold (predicted_of r) cb = true) ->
  exists a, first_shortage company cb pts = Some a.
Proof.
  intros (r & Hin & Hb).
  induction pts as [|[[d p] lo] pts IH]; simpl; [contradiction|].
  destruct (below_threshold p cb) eqn:E; [now eexists|].
  destruct Hin as [<-|Hin].
  - unfold predicted_of in Hb. simpl in Hb. congruence.
  - now apply IH.
Qed.

Lemma insert_alert_tables conflict a db :
  transactions (insert_alert conflict a db) = transactions db
  /\ forecast_runs (insert_alert conflict a db) = forecast_runs db
  /\ forecasts (insert_alert conflict a db) = forecasts db
  /\ bank_accounts (insert_alert conflict a db) = bank_accounts db.
Proof.
  unfold insert_alert. destruct (existsb _ _); repeat split.
Qed.

(** X11. A run of the alert deriver changes nothing but the [alerts]
    table, keeps the alerts that were there, and adds at most one row: a
    cash-shortage alert whose date and amount are those of a baseline
    forecast point of the run that is below the threshold. *)
Theorem alert_run_adds_at_most_one_alert :
  forall alert_conflict company run db,
    let db' := after_alerts alert_conflict company run db in
    transactions db' = transactions db
    /\ forecast_runs db' = forecast_runs db
    /\ forecasts db' = forecasts db
    /\ bank_accounts db' = bank_accounts db
    /\ (alerts db' = alerts db
        \/ exists d p lo,
             In (d, p, lo) (baseline_forecasts run db)
             /\ below_threshold p (scalar_or_zero (active_balance company db))
                = true
             /\ alerts db' = alerts db ++ [cash_shortage_alert company d p]).
Proof.
  intros conflict company run db db'. subst db'.
  rewrite after_alerts_first.
  destruct (first_shortage company _ _) as [a|] eqn:Hfirst.
  - destruct (insert_alert_tables conflict a db) as (Ht & Hr & Hf & Hb).
    repeat (split; [assumption|]).
    apply first_shortage_point in Hfirst.
    destruct Hfirst as (d & p & lo & Hin & Hbelow & ->).
    unfold insert_alert. destruct (existsb _ _); [now left|].
    right. exists d, p, lo. auto.
  - repeat (split; [reflexivity|]). now left.
Qed.

Lemma after_alerts_same_inputs conflict a company run db :
  baseline_forecasts run (insert_alert conflict a db) = baseline_forecasts run db
  /\ active_balance company (insert_alert conflict a db)
     = active_balance company db.
Proof.
  destruct (insert_alert_tables conflict a db) as (_ & _ & Hf & Hb).
  unfold baseline_forecasts, active_balance. now rewrite Hf, Hb.
Qed.

(** X12. If the schema makes an alert conflict with an identical stored
    alert, deriving the alerts of a run a second time changes nothing. *)
Theorem alert_rerun_is_idempotent :
  forall alert_conflict company run db,
    (forall a, alert_conflict a a = true) ->
    after_alerts alert_conflict company run
                 (after_alerts alert_conflict company run db)
    = after_alerts alert_conflict company run db.
Proof.
  intros conflict company run db Hkey.
  rewrite (after_alerts_first conflict company run db).
  destruct (first_shortage company _ _) as [a|] eqn:Hfirst.
  - rewrite after_alerts_first.
    destruct (after_alerts_same_inputs conflict a company run db) as (-> & ->).
    rewrite Hfirst. unfold insert_alert at 1.
    destruct (existsb (conflict a) (alerts (insert_alert conflict a db)))
      eqn:E; [reflexivity|].
    exfalso. unfold insert_alert in E.
    destruct (existsb (conflict a) (alerts db)) eqn:E0; [congruence|].
    cbn [alerts] in E. rewrite existsb_app in E. simpl in E.
    rewrite Hkey in E. rewrite orb_true_r in E. discriminate.
  - rewrite after_alerts_first, Hfirst. reflexivity.
Qed.

(** X13. If no insert ever conflicts (the generated id is the only key),
    deriving the alerts of a run twice stores the same alert twice. *)
Theorem alert_rerun_duplicates_without_key :
  forall alert_conflict company run db,
    (forall a b, alert_conflict a b = false) ->
    (exists r, In r (baseline_forecasts run db)
               /\ below_threshold (predicted_of r)
                    (scalar_or_zero (active_balance company db)) = true) ->
    exists a,
      al_type a = "cash_shortage"%string
      /\ alerts (after_alerts alert_conflict company run db)
         = alerts db ++ [a]
      /\ alerts (after_alerts alert_conflict company run
                   (after_alerts alert_conflict company run db))
         = alerts db ++ [a; a].
Proof.
  intros conflict company run db Hnokey Hpoint.
  destruct (first_shortage_exists company _ _ Hpoint) as (a & Hfirst).
  assert (Hins : forall db0, alerts (insert_alert conflict a db0)
                             = alerts db0 ++ [a]).
  { intros db0. unfold insert_alert.
    replace (existsb (conflict a) (alerts db0)) with false; [reflexivity|].
    symmetry. induction (alerts db0) as [|b l IH]; simpl; [reflexivity|].
    now rewrite Hnokey. }
  exists a. split.
  { apply first_shortage_point in Hfirst.
    destruct Hfirst as (d & p & lo & _ & _ & ->). reflexivity. }
  rewrite (after_alerts_first conflict company run db), Hfirst.
  split; [apply Hins|].
  rewrite after_alerts_first.
  destruct (after_alerts_same_inputs conflict a company run db) as (-> & ->).
  rewrite Hfirst, !Hins, <- app_assoc. reflexivity.
Qed.

Lemma alert_rerun_is_idempotent_witness :
  alerts (after_alerts same_day_conflict "acme" "run-1"
            (after_alerts same_day_conflict "acme" "run-1" shortage_db))
  = [cash_shortage_alert "acme" 3 150].
Proof.
  rewrite (alert_rerun_is_idempotent same_day_conflict "acme" "run-1"
             shortage_db).
  - reflexivity.
  - intros a. unfold same_day_conflict.
    now rewrite !String.eqb_refl, Z.eqb_refl.
Defined.

Lemma alert_rerun_duplicates_without_key_witness :
  alerts (after_alerts no_conflict "acme" "run-1"
            (after_alerts no_conflict "acme" "run-1" shortage_db))
  = [cash_shortage_alert "acme" 3 150; cash_shortage_alert "acme" 3 150].
Proof.
  destruct (alert_rerun_duplicates_without_key no_conflict "acme" "run-1"
              shortage_db) as (a & _ & Hone & Htwo).
  - reflexivity.
  - exists (3, 150, 100). split; [|reflexivity].
    right. right. left. reflexivity.
  - rewrite Htwo. vm_compute in Hone. injection Hone as <-. reflexivity.
Defined.

(** ** Forecast pipeline: final status and footprint *)

Lemma update_runs_other run f db :
  (forall r, run_id (f r) = run_id r) ->
  other_runs run (update_runs run f db) = other_runs run db
  /\ length (forecast_runs (update_runs run f db))
     = length (forecast_runs db).
Proof.
  intros Hid. unfold other_runs. cbn [forecast_runs update_runs].
  split; [|apply length_map].
  induction (forecast_runs db) as [|r l IH]; simpl; [reflexivity|].
  destruct (String.eqb (run_id r) run) eqn:E; simpl.
  - rewrite Hid, E. simpl. exact IH.
  - rewrite E. simpl. now rewrite IH.
Qed.

Section Footprint.
Variables model_version run company : string.
Variable db : database.

Lemma footprint_refl : footprint model_version run company db db.
Proof.
  unfold footprint. repeat (split; [reflexivity|]).
  exists []. split; [now rewrite app_nil_r|constructor].
Qed.

Lemma footprint_update_runs f db' :
  (forall r, run_id (f r) = run_id r) ->
  footprint model_version run company db db' ->
  footprint model_version run company db (update_runs run f db').
Proof.
  intros Hid (Ht & Hb & Ho & Hl & Hf).
  destruct (update_runs_other run f db' Hid) as (Ho' & Hl').
  unfold footprint. cbn [transactions bank_accounts forecasts update_runs].
  repeat split; try assumption; congruence.
Qed.

Lemma footprint_append scenario fs db' :
  In scenario scenarios ->
  footprint model_version run company db db' ->
  footprint model_version run company db
    (append_forecasts (forecast_rows model_version run company scenario fs)
                      db').
Proof.
  intros Hsc (Ht & Hb & Ho & Hl & added & Hf & Hall).
  unfold footprint, other_runs.
  cbn [transactions bank_accounts forecasts forecast_runs append_forecasts].
  repeat (split; [assumption|]).
  exists (added ++ forecast_rows model_version run company scenario fs).
  split; [now rewrite Hf, app_assoc|].
  apply Forall_app. split; [exact Hall|].
  unfold forecast_rows. apply Forall_forall. intros r Hr.
  apply in_map_iff in Hr. destruct Hr as (p & <- & _). cbn. auto.
Qed.

End Footprint.

(** X15. Whatever its outcome, a run of the pipeline leaves the
    transactions and the bank accounts as they were, does not touch the
    rows of other runs (nor the number of rows) in [forecast_runs], and
    never removes a forecast row: the forecasts table grows by rows that
    carry this run's id, its company, one of the three scenarios and the
    configured model version. *)
Theorem pipeline_changes_only_its_run :
  forall prophet sqrt_float model_version processing_time alert_conflict
         run company horizon db,
    let final := committed (pipeline_run prophet sqrt_float model_version
                              processing_time alert_conflict run company
                              horizon db) in
    transactions final = transactions db
    /\ bank_accounts final = bank_accounts db
    /\ other_runs run final = other_runs run db
    /\ length (forecast_runs final) = length (forecast_runs db)
    /\ exists added,
         forecasts final = forecasts db ++ added
         /\ Forall (fun r => f_run r = run /\ f_company r = company
                             /\ In (f_scenario r) scenarios
                             /\ f_model_version r = model_version)
                   added.
Proof.
  intros prophet sqrt_float mv time conflict run company horizon db final.
  change (footprint mv run company db final). subst final.
  rewrite pipeline_run_unrolled. cbv zeta.
  assert (H1 : footprint mv run company db (mark_processing run db)).
  { apply footprint_update_runs; [reflexivity|apply footprint_refl]. }
  assert (Hfail : forall e last published,
             footprint mv run company db last ->
             footprint mv run company db
               (committed (failed_session run e last published))).
  { intros e last published Hlast. cbn [committed failed_session].
    apply footprint_update_runs; [reflexivity|exact Hlast]. }
  destruct (Nat.ltb _ 90); [now apply Hfail|].
  destruct (generate_prophet_forecast prophet _ horizon "pessimistic")
    as [fp|e]; [|now apply Hfail].
  assert (H2 := footprint_append mv run company db "pessimistic" fp _
                  (or_introl eq_refl) H1).
  destruct (generate_prophet_forecast prophet _ horizon "baseline")
    as [fb|e]; [|now apply Hfail].
  assert (H3 := footprint_append mv run company db "baseline" fb _
                  (or_intror (or_introl eq_refl)) H2).
  destruct (calculate_accuracy prophet sqrt_float _ fb) as [m|e];
    [|now apply Hfail].
  destruct (generate_prophet_forecast prophet _ horizon "optimistic")
    as [fo|e]; [|now apply Hfail].
  assert (H4 := footprint_append mv run company db "optimistic" fo _
                  (or_intror (or_intror (or_introl eq_refl))) H3).
  now apply Hfail.
Qed.

(** X14. A run never ends in status processing. When the [try] block
    returns, every row of the run is completed and holds the processing
    time; when it raises [e], every row of the run is failed and holds
    [str(e)] as its error message. (With the completing UPDATE rejected,
    the [try] block raises whenever it gets that far.) *)
Theorem pipeline_ends_completed_or_failed :
  forall prophet sqrt_float model_version processing_time alert_conflict
         run company horizon db r,
    let outcome := pipeline_try prophet sqrt_float model_version
                     processing_time alert_conflict run company horizon db in
    let final := committed (pipeline_run prophet sqrt_float model_version
                              processing_time alert_conflict run company
                              horizon db) in
    In r (forecast_runs final) -> run_id r = run ->
    (outcome = Ok tt
     /\ run_status r = "completed"%string
     /\ run_processing_time_ms r = Some processing_time)
    \/ (exists e,
           outcome = Raise e
           /\ run_status r = "failed"%string
           /\ run_error_message r = Some (str_exn e)).
Proof.
  intros prophet sqrt_float mv time conflict run company horizon db r
         outcome final. subst outcome final.
  rewrite pipeline_run_unrolled, pipeline_try_unrolled. cbv zeta.
  assert (Hfail : forall e last published,
             In r (forecast_runs (committed
                                    (failed_session run e last published))) ->
             run_id r = run ->
             run_status r = "failed"%string
             /\ run_error_message r = Some (str_exn e)).
  { intros e last published Hin Hid. cbn [committed failed_session] in Hin.
    now apply (mark_failed_rows run (str_exn e) last). }
  destruct (Nat.ltb _ 90).
  { intros Hin Hid. right. eexists. split; [reflexivity|]. eauto. }
  destruct (generate_prophet_forecast prophet _ horizon "pessimistic")
    as [fp|e]; cbn [bindR].
  2:{ intros Hin Hid. right. eexists. split; [reflexivity|]. eauto. }
  destruct (generate_prophet_forecast prophet _ horizon "baseline")
    as [fb|e]; cbn [bindR].
  2:{ intros Hin Hid. right. eexists. split; [reflexivity|]. eauto. }
  destruct (calculate_accuracy prophet sqrt_float _ fb) as [m|e]; cbn [bindR].
  2:{ intros Hin Hid. right. eexists. split; [reflexivity|]. eauto. }
  destruct (generate_prophet_forecast prophet _ horizon "optimistic")
    as [fo|e]; cbn [bindR].
  2:{ intros Hin Hid. right. eexists. split; [reflexivity|]. eauto. }
  intros Hin Hid. right. eexists. split; [reflexivity|]. eauto.
Qed.

Lemma pipeline_ends_completed_or_failed_witness :
  exists r,
    In r (forecast_runs
            (committed (pipeline_run failing_prophet sample_sqrt "1.0.0"
                          40 no_conflict "run-1" "acme" 7 (ledger_db 90))))
    /\ run_id r = "run-1"%string
    /\ run_status r = "failed"%string
    /\ run_error_message r = Some "fit failed"%string.
Proof.
  exists {| run_id := "run-1"; run_status := "failed";
            run_error_message := Some "fit failed"%string;
            run_processing_time_ms := None;
            run_accuracy_metrics := None |}.
  assert (Hin : In {| run_id := "run-1"; run_status := "failed";
                      run_error_message := Some "fit failed"%string;
                      run_processing_time_ms := None;
                      run_accuracy_metrics := None |}
                   (forecast_runs
                      (committed (pipeline_run failing_prophet sample_sqrt
                                    "1.0.0" 40 no_conflict "run-1" "acme" 7
                                    (ledger_db 90))))).
  { vm_compute. right. left. reflexivity. }
  split; [exact Hin|]. split; [reflexivity|].
  destruct (pipeline_ends_completed_or_failed failing_prophet sample_sqrt
              "1.0.0" 40 no_conflict "run-1" "acme" 7 (ledger_db 90) _
              Hin eq_refl)
    as [(Hok & _)|(e & Hraise & Hstatus & Hmsg)].
  - vm_compute in Hok. discriminate.
  - split; [exact Hstatus|]. reflexivity.
Defined.

(** X16. Forecast rows that were stored stay stored when a later step of
    the run fails: once the pessimistic forecast has been produced its rows
    are in the final table whatever happens next, and likewise the baseline
    rows once both forecasts have been produced. *)
Theorem stored_forecasts_survive_failure :
  forall prophet sqrt_float model_version processing_time alert_conflict
         run company horizon db,
    let final := committed (pipeline_run prophet sqrt_float model_version
                              processing_time alert_conflict run company
                              horizon db) in
    let df := prepare_prophet_data (fetch_transactions company db) in
    let forecast := generate_prophet_forecast prophet df horizon in
    let rows := forecast_rows model_version run company in
    (90 <= length (distinct_days company db))%nat ->
    forall fp,
      forecast "pessimistic"%string = Ok fp ->
      incl (rows "pessimistic"%string fp) (forecasts final)
      /\ forall fb,
           forecast "baseline"%string = Ok fb ->
           incl (rows "baseline"%string fb) (forecasts final).
Proof.
  intros prophet sqrt_float mv time conflict run company horizon db
         final df forecast rows Hdays fp Hp.
  subst final. rewrite pipeline_run_unrolled. cbv zeta.
  fold df. fold forecast. fold rows.
  rewrite <- fetch_transactions_length in Hdays.
  apply Nat.ltb_ge in Hdays. rewrite Hdays, Hp.
  assert (Hin1 : forall r l1 l2, In r l1 ->
                                 In r ((forecasts db ++ l1) ++ l2)).
  { intros r l1 l2 Hr. apply in_or_app. left. apply in_or_app. now right. }
  destruct (forecast "baseline"%string) as [fb|e] eqn:Hb.
  2:{ cbn. split; [|discriminate].
      intros r Hr. apply in_or_app. now right. }
  destruct (calculate_accuracy prophet sqrt_float df fb) as [m|e].
  2:{ cbn. split.
      - intros r Hr. now apply Hin1.
      - intros fb' [= <-] r Hr. apply in_or_app. now right. }
  destruct (forecast "optimistic"%string) as [fo|e].
  2:{ cbn. split.
      - intros r Hr. now apply Hin1.
      - intros fb' [= <-] r Hr. apply in_or_app. now right. }
  cbn. split.
  - intros r Hr. apply in_or_app. left. now apply Hin1.
  - intros fb' [= <-] r Hr. apply in_or_app. left.
    apply in_or_app. now right.
Qed.

Lemma stored_forecasts_survive_failure_witness :
  exists fp,
    length fp = 7%nat
    /\ incl (forecast_rows "1.0.0" "run-1" "acme" "pessimistic" fp)
            (forecasts
               (committed (pipeline_run baseline_failing_prophet sample_sqrt
                             "1.0.0" 40 no_conflict "run-1" "acme" 7
                             (ledger_db 90))))
    /\ status_of "run-1"
         (committed (pipeline_run baseline_failing_prophet sample_sqrt
                       "1.0.0" 40 no_conflict "run-1" "acme" 7
                       (ledger_db 90)))
       = ["failed"%string].
Proof.
  assert (Hp : exists fp,
             generate_prophet_forecast baseline_failing_prophet
               (prepare_prophet_data
                  (fetch_transactions "acme" (ledger_db 90)))
               7 "pessimistic" = Ok fp
             /\ length fp = 7%nat).
  { eexists. split; [vm_compute; reflexivity|reflexivity]. }
  destruct Hp as (fp & Hp & Hlen).
  assert (H90 : (90 <= length (distinct_days "acme" (ledger_db 90)))%nat)
    by (apply Nat.leb_le; vm_compute; reflexivity).
  exists fp. split; [exact Hlen|]. split.
  - exact (proj1 (stored_forecasts_survive_failure baseline_failing_prophet
                    sample_sqrt "1.0.0" 40 no_conflict "run-1" "acme" 7
                    (ledger_db 90) H90 fp Hp)).
  - vm_compute. reflexivity.
Defined.

(** ** Anomaly scorer: what is analysed and what is reported *)

Lemma In_firstn_list {A} (n : nat) (l : list A) (x : A) :
  In x (firstn n l) -> In x l.
Proof.
  intros H. rewrite <- (firstn_skipn n l). apply in_or_app. now left.
Qed.

Lemma select_transactions_In request db t :
  In t (select_transactions request db) ->
  In t (transactions db)
  /\ tx_company t = company_id request
  /\ (transaction_ids request <> [] ->
      In (tx_id t) (transaction_ids request)).
Proof.
  unfold select_transactions.
  destruct (transaction_ids request) as [|i ids] eqn:Hids.
  - intros H. apply In_firstn_list, order_by_In, filter_In in H.
    destruct H as (Hin & Hc). apply String.eqb_eq in Hc.
    split; [exact Hin|]. split; [exact Hc|congruence].
  - intros H. apply filter_In in H. destruct H as (Hin & Hc).
    apply andb_true_iff in Hc. destruct Hc as (Hc & Hid).
    apply String.eqb_eq in Hc. apply existsb_exists in Hid.
    destruct Hid as (i' & Hi' & Heq). apply String.eqb_eq in Heq.
    split; [exact Hin|]. split; [exact Hc|]. intros _. now rewrite Heq.
Qed.

Lemma mapR_length {A B} (f : A -> result B) l ys :
  mapR f l = Ok ys -> length ys = length l.
Proof.
  revert ys. induction l as [|x l IH]; intros ys; simpl.
  - now intros [= <-].
  - destruct (f x) as [y|e]; [|discriminate]. cbn [bindR].
    destruct (mapR f l) as [ys'|e]; [|discriminate]. cbn [bindR].
    intros [= <-]. simpl. f_equal. now apply IH.
Qed.

Lemma mapR_each_ok {A B} (f : A -> result B) l ys :
  mapR f l = Ok ys -> forall x, In x l -> exists y, f x = Ok y.
Proof.
  revert ys. induction l as [|x l IH]; intros ys; simpl; [tauto|].
  destruct (f x) as [y|e] eqn:Hx; [|discriminate]. cbn [bindR].
  destruct (mapR f l) as [ys'|e]; [|discriminate].
  intros _ x' [<-|Hin]; [now exists y|]. now apply (IH ys').
Qed.

Lemma np_where_eq_NoDup v a from : NoDup (np_where_eq v a from).
Proof.
  revert from. induction a as [|x a IH]; intros from; simpl; [constructor|].
  destruct (Z.eqb x v); [|apply IH].
  constructor; [|apply IH].
  intros Hin. apply np_where_eq_In in Hin. lia.
Qed.

(** X17. The scorer reports on the company's own transactions only: every
    record it returns copies the id, date and category of a transaction of
    the requested company, one of the requested ids when ids were given.
    Without ids at most 1000 transactions are analysed; with fewer than 100
    analysed the list is empty; and there are never more records than
    transactions analysed. *)
Theorem anomalies_come_from_the_company :
  forall fit_predict score_samples request db anomalies total,
    detect_anomalies fit_predict score_samples request db
    = Ok (anomalies, total) ->
    (transaction_ids request = [] -> (total <= 1000)%nat)
    /\ ((total < 100)%nat -> anomalies = [])
    /\ (length anomalies <= total)%nat
    /\ Forall (fun a =>
                 exists t,
                   In t (transactions db)
                   /\ tx_company t = company_id request
                   /\ transactionId a = tx_id t
                   /\ anomaly_date a = tx_date t
                   /\ category a = tx_category t
                   /\ (transaction_ids request <> [] ->
                       In (tx_id t) (transaction_ids request)))
              anomalies.
Proof.
  intros fit_predict score_samples request db anomalies total.
  unfold detect_anomalies.
  set (rows := select_transactions request db).
  assert (Hlimit : transaction_ids request = [] -> (length rows <= 1000)%nat).
  { intros Hids. unfold rows, select_transactions. rewrite Hids.
    rewrite length_firstn. lia. }
  destruct (Nat.ltb (length rows) 100) eqn:Hsmall.
  { intros [= <- <-]. split; [exact Hlimit|]. split; [reflexivity|].
    split; [simpl; lia|constructor]. }
  match goal with
  | |- context [mapR ?f ?l] =>
      destruct (mapR f l) as [ys|e] eqn:Hmap; [|discriminate]
  end.
  cbn [bindR]. intros [= <- <-]. split; [exact Hlimit|]. split.
  { intros Hlt. apply Nat.ltb_ge in Hsmall. lia. }
  split.
  - rewrite (mapR_length _ _ _ Hmap).
    apply Nat.le_trans with (length (seq 0 (length rows)));
      [|rewrite length_seq; lia].
    apply NoDup_incl_length; [apply np_where_eq_NoDup|].
    intros idx Hidx. apply in_seq.
    destruct (mapR_each_ok _ _ _ Hmap idx Hidx) as (a & Ha).
    cbv beta in Ha.
    destruct (nth_error rows idx) as [row|] eqn:Hrow; [|discriminate].
    assert (idx < length rows)%nat by (apply nth_error_Some; congruence).
    lia.
  - eapply mapR_Forall; [|exact Hmap].
    intros idx a _ Ha. cbv beta in Ha.
    destruct (nth_error rows idx) as [row|] eqn:Hrow; [|discriminate].
    destruct (score_samples _ _ _ _) as [|s scores]; [discriminate|].
    injection Ha as <-. apply nth_error_In in Hrow.
    destruct (select_transactions_In request db row Hrow) as (Hin & Hc & Hid).
    exists row. cbn. auto 10.
Qed.

Lemma anomalies_come_from_the_company_witness :
  exists anomalies,
    detect_anomalies outlier_forest outlier_scores refund_request refund_db
    = Ok (anomalies, 100%nat)
    /\ (length anomalies <= 100)%nat
    /\ Forall (fun a => exists t, In t (transactions refund_db)
                                  /\ transactionId a = tx_id t) anomalies.
Proof.
  assert (Hrun : exists anomalies,
             detect_anomalies outlier_forest outlier_scores refund_request
                              refund_db = Ok (anomalies, 100%nat)).
  { eexists. vm_compute. reflexivity. }
  destruct Hrun as (anomalies & Hrun).
  exists anomalies. split; [exact Hrun|].
  destruct (anomalies_come_from_the_company outlier_forest outlier_scores
              refund_request refund_db anomalies 100%nat Hrun)
    as (_ & _ & Hlen & Hall).
  split; [exact Hlen|].
  eapply Forall_impl; [|exact Hall].
  intros a (t & Hin & _ & Hid & _). exists t. auto.
Defined.

Lemma StronglySorted_app_split {A} (R : A -> A -> Prop) (l1 l2 : list A) :
  StronglySorted R (l1 ++ l2) ->
  StronglySorted R l1 /\ forall x y, In x l1 -> In y l2 -> R x y.
Proof.
  induction l1 as [|a l1 IH]; simpl; intros H.
  - split; [constructor|intros x y []].
  - inversion H as [|? ? Hs Hall]; subst. destruct (IH Hs) as (Hs1 & Hcross).
    rewrite Forall_forall in Hall. split.
    + constructor; [exact Hs1|]. apply Forall_forall.
      intros x Hx. apply Hall, in_or_app. now left.
    + intros x y [<-|Hx] Hy; [|now apply Hcross].
      apply Hall, in_or_app. now right.
Qed.

Lemma StronglySorted_neg_key {A} (key : A -> Z) (l : list A) :
  StronglySorted Z.le (map (fun t => - key t) l) ->
  StronglySorted (fun a b => b <= a) (map key l).
Proof.
  induction l as [|t l IH]; simpl; intros H; [constructor|].
  inversion H as [|? ? Hs Hall]; subst. constructor; [now apply IH|].
  rewrite Forall_forall in *. intros d Hd. apply in_map_iff in Hd.
  destruct Hd as (t' & <- & Ht').
  specialize (Hall (- key t') (in_map (fun t => - key t) l t' Ht')). lia.
Qed.

(** X18. Without explicit ids the scorer analyses the company's most
    recent transactions: the selection is in descending date order, holds
    the first 1000 of the company's transactions (all of them when there
    are fewer), and every transaction of the company left out is dated no
    later than every one selected. *)
Theorem most_recent_transactions_are_analysed :
  forall request db,
    transaction_ids request = [] ->
    let selected := select_transactions request db in
    let company := filter (fun t => String.eqb (tx_company t)
                                               (company_id request))
                          (transactions db) in
    StronglySorted (fun a b => b <= a) (map tx_date selected)
    /\ length selected = Nat.min 1000 (length company)
    /\ exists left_out,
         Permutation company (selected ++ left_out)
         /\ forall s t, In s selected -> In t left_out ->
                        tx_date t <= tx_date s.
Proof.
  intros request db Hids selected company.
  unfold selected, select_transactions. rewrite Hids. fold company.
  set (sorted := order_by (fun t => - tx_date t) company).
  assert (Hsorted : StronglySorted Z.le
                      (map (fun t => - tx_date t)
                           (firstn 1000 sorted ++ skipn 1000 sorted))).
  { rewrite firstn_skipn. apply Sorted_StronglySorted.
    - intros x y z. apply Z.le_trans.
    - apply order_by_sorted. }
  rewrite map_app in Hsorted.
  apply StronglySorted_app_split in Hsorted. destruct Hsorted as (Hs & Hcross).
  split; [now apply StronglySorted_neg_key|]. split.
  - rewrite length_firstn. unfold sorted. now rewrite order_by_length.
  - exists (skipn 1000 sorted). split.
    + rewrite firstn_skipn. apply order_by_perm.
    + intros s t Hs' Ht'.
      specialize (Hcross (- tx_date s) (- tx_date t)
                    (in_map (fun t => - tx_date t) _ s Hs')
                    (in_map (fun t => - tx_date t) _ t Ht')).
      lia.
Qed.

Lemma most_recent_transactions_are_analysed_witness :
  StronglySorted (fun a b => b <= a)
    (map tx_date (select_transactions refund_request refund_db))
  /\ length (select_transactions refund_request refund_db) = 100%nat.
Proof.
  destruct (most_recent_transactions_are_analysed refund_request refund_db
              eq_refl) as (Hsorted & Hlen & _).
  split; [exact Hsorted|].
  etransitivity; [exact Hlen|]. vm_compute. reflexivity.
Defined.

Lemma mapR_ext_in {A B} (f g : A -> result B) l :
  (forall x, In x l -> f x = g x) -> mapR f l = mapR g l.
Proof.
  induction l as [|x l IH]; intros H; simpl; [reflexivity|].
  rewrite (H x) by now left. rewrite IH; [reflexivity|].
  intros y Hy. apply H. now right.
Qed.

Lemma features_of_valid rows :
  (100 <= length rows)%nat -> valid_features (features_of rows).
Proof.
  intros Hlen. unfold valid_features, features_of.
  rewrite length_map. split; [exact Hlen|].
  apply Forall_forall. intros x Hx. apply in_map_iff in Hx.
  destruct Hx as (t & <- & _). cbn [fst snd]. split.
  - apply Qle_shift_div_l; [reflexivity|].
    rewrite Qmult_0_l. change 0%Q with (inject_Z 0).
    rewrite <- Zle_Qle. apply Z.abs_nonneg.
  - unfold dayofweek. pose proof (Z.mod_pos_bound (tx_date t + 3) 7). lia.
Qed.

Lemma single_row_of_features {A} (l : list A) idx x :
  nth_error l idx = Some x -> firstn 1 (skipn idx l) = [x].
Proof.
  revert idx. induction l as [|y l IH]; intros [|idx]; simpl;
    try discriminate.
  - intros [= ->]. reflexivity.
  - apply IH.
Qed.

(** X19. The scorer consults the model on well-formed input only: the
    forest is fitted with contamination 0.05 and seed 42 on one feature
    pair per analysed transaction, at least 100 of them, each a
    non-negative amount and a day of the week between 0 and 6, and a score
    is asked for one row of that matrix at a time. Two models that agree
    on such input give the same response. *)
Theorem scorer_consults_model_on_valid_features :
  forall (fit_predict fit_predict' : Q -> Z -> list feature -> list Z)
         (score_samples score_samples' :
            Q -> Z -> list feature -> list feature -> list Q)
         request db,
    (forall X, valid_features X ->
               fit_predict 0.05%Q 42 X = fit_predict' 0.05%Q 42 X) ->
    (forall X x, valid_features X -> In x X ->
                 score_samples 0.05%Q 42 X [x]
                 = score_samples' 0.05%Q 42 X [x]) ->
    detect_anomalies fit_predict score_samples request db
    = detect_anomalies fit_predict' score_samples' request db.
Proof.
  intros fit fit' score score' request db Hfit Hscore.
  unfold detect_anomalies.
  set (rows := select_transactions request db).
  destruct (Nat.ltb (length rows) 100) eqn:Hsmall; [reflexivity|].
  apply Nat.ltb_ge in Hsmall.
  pose proof (features_of_valid rows Hsmall) as Hvalid.
  rewrite <- (Hfit _ Hvalid).
  f_equal. apply mapR_ext_in. intros idx _.
  destruct (nth_error rows idx) as [row|] eqn:Hrow; [|reflexivity].
  assert (Hx : nth_error (features_of rows) idx
               = Some ((inject_Z (Z.abs (tx_amount row)) / 100)%Q,
                       dayofweek (tx_date row))).
  { unfold features_of. rewrite nth_error_map, Hrow. reflexivity. }
  rewrite (single_row_of_features _ _ _ Hx).
  rewrite (Hscore _ _ Hvalid (nth_error_In _ _ Hx)). reflexivity.
Qed.

Lemma scorer_consults_model_on_valid_features_witness :
  detect_anomalies outlier_forest outlier_scores refund_request refund_db
  = detect_anomalies guarded_forest outlier_scores refund_request refund_db.
Proof.
  apply scorer_consults_model_on_valid_features.
  - intros X (Hlen & _). unfold guarded_forest.
    apply Nat.ltb_ge in Hlen. now rewrite Hlen.
  - reflexivity.
Defined.
